(** * Portfolio optimizer: [main_clean.py]

    The development embeds [optimize_portfolio] and [print_allocation],
    the pandas / NumPy operations they call, and the command-line layer
    around them.

    Numbers.  The program computes with binary64 values; they are
    Rocq's primitive floats, whose operations are the IEEE 754
    operations of the processor (round to nearest, ties to even).  A
    Python integer becomes a float by rounding to nearest; a float
    series becomes integers by the 64-bit cast of the processor.

    Libraries.  pandas is taken from version 3 on: [pct_change] fills
    no missing price, and an integer key of a [Series] is a label, not
    a position.  NumPy is taken from version 2 on (a Python integer
    next to a float array is converted to binary64), on a 64-bit
    x86 processor.  A sum ([np.sum], [np.dot], a pandas [sum]) adds its
    terms from left to right, rounding each product and each partial
    sum.

    External code.  SciPy's [minimize] is not part of the program; it
    is a variable of the sections that use it. *)

From Stdlib Require Import String.
From Stdlib Require Import ZArith QArith Qround Lqa Lia List Bool Floats.
Import ListNotations.

#[local] Set Warnings "-inexact-float".

Local Open Scope float_scope.

(* ------------------------------------------------------------------ *)
(** ** Binary64 *)

Module Float.

Definition NaN : float := nan.

Definition isnan (x : float) : bool := is_nan x.

Definition isfinite (x : float) : bool := is_finite x.

(** An integer as a float: the nearest binary64 value, ties to even;
    an infinity when the integer is beyond the largest one. *)
Definition of_Z (z : Z) : float := SF2Prim (binary_normalize prec emax z 0 false).

(** The rational number a finite float is; [0] for the others. *)
Definition value (x : float) : Q :=
  match Prim2SF x with
  | S754_finite s m e =>
      match e with
      | Zneg k => Qmake (cond_Zopp s (Zpos m)) (2 ^ k)%positive
      | _ => inject_Z (cond_Zopp s (Zpos m) * 2 ^ e)%Z
      end
  | _ => 0%Q
  end.

(** Truncation toward zero. *)
Definition Qtrunc (q : Q) : Z := Z.quot (Qnum q) (Zpos (Qden q)).

(** The cast of a finite float to a 64-bit integer: its integer part
    when that is a 64-bit integer, and the smallest 64-bit integer
    otherwise. *)
Definition int64 (x : float) : Z :=
  let z := Qtrunc (value x) in
  if ((- 2 ^ 63 <=? z) && (z <? 2 ^ 63))%Z then z else (- 2 ^ 63)%Z.

End Float.
Import Float.

(* ------------------------------------------------------------------ *)
(** ** Results of a call: a value or a raised exception *)

(** The key of a lookup: a string or an integer. *)
Inductive key : Type :=
| Str (s : string)
| Int (i : Z).

(** [IntCastingNaNError] (a [ValueError]) is what pandas raises when a
    series holding a non-finite value is cast to integers;
    [ValueError] is a shape mismatch, [IndexError] a position out of
    range, [KeyError] a label that is not there, [OverflowError] a
    Python integer too large for a float, and [MinimizeError] stands
    for an exception raised inside [scipy.optimize.minimize], with its
    text.  The last three are the error names of the specification: no
    statement of the program or of its libraries raises them. *)
Inductive exn : Type :=
| IntCastingNaNError
| ValueError
| IndexError
| KeyError (k : key)
| OverflowError
| MinimizeError (text : string)
| InsufficientDataError
| OptimizationDivergedError
| InvalidPriceError.

Inductive outcome (A : Type) : Type :=
| Ok (a : A)
| Raise (e : exn).
Arguments Ok {A} a.
Arguments Raise {A} e.

Definition obind {A B : Type} (m : outcome A) (k : A -> outcome B) : outcome B :=
  match m with
  | Ok a => k a
  | Raise e => Raise e
  end.

(* ------------------------------------------------------------------ *)
(** ** NumPy and pandas operations *)

(** A one-dimensional array or the values of a [Series]; a frame is its
    column labels and its rows. *)
Definition Series := list float.

Record DataFrame : Type := mkFrame {
  columns : list string;
  rows : list (list float)
}.

Definition np_sum (v : Series) : float := fold_left PrimFloat.add v 0.

(** [np.dot] of two vectors of one length. *)
Definition np_dot (u v : Series) : float :=
  np_sum (map (fun p => fst p * snd p) (combine u v)).

(** [np.dot] of a matrix and a vector. *)
Definition np_matvec (m : list (list float)) (v : Series) : Series :=
  map (fun r => np_dot r v) m.

(** [df.pct_change()]: the first row has no predecessor and is NaN;
    every later entry is [p_t / p_(t-1) - 1]. *)
Fixpoint pct_rows (prev : list float) (rs : list (list float)) : list (list float) :=
  match rs with
  | [] => []
  | r :: rs' =>
      map (fun p => fst p / snd p - 1) (combine r prev) :: pct_rows r rs'
  end.

Definition pct_change (df : DataFrame) : DataFrame :=
  match rows df with
  | [] => df
  | r :: rs => mkFrame (columns df) (map (fun _ => NaN) r :: pct_rows r rs)
  end.

(** [df.dropna()]: the rows without a NaN.  Infinities are kept. *)
Definition dropna (df : DataFrame) : DataFrame :=
  mkFrame (columns df) (filter (fun r => negb (existsb isnan r)) (rows df)).

Definition column (df : DataFrame) (j : nat) : Series :=
  map (fun r => nth j r NaN) (rows df).

(** The number of entries, as a float. *)
Definition count {A : Type} (l : list A) : float := of_Z (Z.of_nat (length l)).

(** [series.mean()] skips NaN; an empty selection has mean NaN. *)
Definition series_mean (s : Series) : float :=
  let kept := filter (fun x => negb (isnan x)) s in
  match kept with
  | [] => NaN
  | _ => np_sum kept / count kept
  end.

(** [df.mean()]: one mean per column. *)
Definition mean (df : DataFrame) : Series :=
  map (fun j => series_mean (column df j)) (seq 0 (length (columns df))).

(** [np.cov(..., ddof=1)], which [df.cov()] calls on a frame without
    NaN: center each variable on its average, take the dot products and
    scale by [1 / fact], where [fact = N - 1] is replaced by [0] when it
    is not positive. *)
Definition np_average (s : Series) : float := np_sum s / count s.

Definition center (s : Series) : Series :=
  let avg := np_average s in map (fun v => v - avg) s.

Definition cov_fact (n : nat) : float :=
  let fact := (Z.of_nat n - 1)%Z in
  of_Z (if (fact <=? 0)%Z then 0 else fact).

Definition cov_entry (n : nat) (a b : Series) : float :=
  np_dot (center a) (center b) * (1 / cov_fact n).

Definition cov (df : DataFrame) : list (list float) :=
  let m := length (columns df) in
  let n := length (rows df) in
  map (fun i => map (fun j => cov_entry n (column df i) (column df j)) (seq 0 m))
      (seq 0 m).

(** [series.astype(int)]: refused when a value is not finite. *)
Definition astype_int (s : Series) : outcome (list Z) :=
  if forallb isfinite s
  then Ok (map int64 s)
  else Raise IntCastingNaNError.

(** [array / series], element by element.  A one-element array is
    broadcast; any other difference of lengths is refused. *)
Definition truediv (a : Series) (s : Series) : outcome Series :=
  if (length a =? length s)%nat
  then Ok (map (fun p => fst p / snd p) (combine a s))
  else match a with
       | [v] => Ok (map (fun d => v / d) s)
       | _ => Raise ValueError
       end.

(** A Python integer next to a float array: it becomes a float, and is
    refused when it is too large for one. *)
Definition of_int (n : Z) : outcome float :=
  let b := of_Z n in
  if is_infinity b then Raise OverflowError else Ok b.

(** [array * n] for a Python integer [n]. *)
Definition times_int (a : Series) (n : Z) : outcome Series :=
  obind (of_int n) (fun b => Ok (map (fun v => v * b) a)).

(** [np.dot] refuses operands whose shapes do not agree. *)
Definition dot (u v : Series) : outcome float :=
  if (length u =? length v)%nat then Ok (np_dot u v) else Raise ValueError.

Definition matvec (m : list (list float)) (v : Series) : outcome Series :=
  if forallb (fun r => (length r =? length v)%nat) m
  then Ok (np_matvec m v) else Raise ValueError.

(** [a[i]] on an array and [s.iloc[i]] on a series: by position. *)
Definition getitem {A : Type} (l : list A) (i : nat) : outcome A :=
  match nth_error l i with
  | Some a => Ok a
  | None => Raise IndexError
  end.

(** [s[k]] on a series: by label.  The labels are ticker symbols. *)
Definition key_is (label : string) (k : key) : bool :=
  match k with
  | Str s => String.eqb label s
  | Int _ => false
  end.

Fixpoint loc {A : Type} (index : list string) (values : list A) (k : key) : outcome A :=
  match index, values with
  | label :: index', v :: values' =>
      if key_is label k then Ok v else loc index' values' k
  | _, _ => Raise (KeyError k)
  end.

(* ------------------------------------------------------------------ *)
(** ** [optimize_portfolio] *)

Record Constraint : Type := mkConstraint {
  ctype : string;
  cfun : Series -> float
}.

(** The fields of SciPy's [OptimizeResult] the program could read; it
    reads [x] only. *)
Record OptimizeResult : Type := mkResult {
  x : Series;
  success : bool;
  status : Z
}.

(** [minimize(fun, x0, method, bounds, constraints)] returns a result,
    or raises an exception of its own (a [ValueError] when there is no
    variable to optimize, say), given here by its text. *)
Definition Solver : Type :=
  (Series -> float) -> Series -> string -> list (float * float) ->
  Constraint -> OptimizeResult + string.

(** Lines 69 to 71: the cleaned return series, its mean and its
    covariance. *)
Definition return_statistics (adj_close : DataFrame)
  : outcome (DataFrame * Series * list (list float)) :=
  let returns := dropna (pct_change adj_close) in
  let mean_returns := mean returns in
  let cov_matrix := cov returns in
  Ok (returns, mean_returns, cov_matrix).

Definition negative_return (mean_returns : Series) (weights : Series) : float :=
  - np_dot weights mean_returns.

Definition bounds (num_assets : nat) : list (float * float) :=
  repeat (0, 1) num_assets.

Definition constraints : Constraint :=
  mkConstraint "eq"%string (fun w => np_sum w - 1).

Definition initial_guess (num_assets : nat) : Series :=
  map (fun one => one / of_Z (Z.of_nat num_assets)) (repeat 1 num_assets).

Section Engine.

(** [scipy.optimize.minimize]. *)
Variable minimize : Solver.

(** The call of line 81. *)
Definition solve (adj_close : DataFrame) (mean_returns : Series)
  : OptimizeResult + string :=
  let num_assets := length (columns adj_close) in
  minimize (negative_return mean_returns) (initial_guess num_assets)
           "SLSQP"%string (bounds num_assets) constraints.

Definition optimize_portfolio (adj_close : DataFrame)
  : outcome (Series * Series * list (list float)) :=
  obind (return_statistics adj_close) (fun st =>
    let '(returns, mean_returns, cov_matrix) := st in
    match solve adj_close mean_returns with
    | inl result =>
        let optimal_weights := x result in
        Ok (optimal_weights, mean_returns, cov_matrix)
    | inr text => Raise (MinimizeError text)
    end).

End Engine.

(* ------------------------------------------------------------------ *)
(** ** [print_allocation] *)

(** What a [print] call writes, with each number as it is before it is
    formatted; the blank line in front of a heading is left out. *)
Inductive line : Type :=
| Text (s : string)
| WeightPct (ticker : string) (pct : float)
| DailyReturnPct (v : float)
| DailyVolatilityPct (v : float)
| AnnualReturnPct (v : float)
| AnnualVolatilityPct (v : float)
| PlanHeader (investment_limit : Z)
| PlanLine (ticker : string) (amount : float) (shares : Z) (price : float).

(** A statement sequence: standard output so far to standard output
    after, with the value or the exception that ended it. *)
Definition py (A : Type) : Type := list line -> list line * outcome A.

Definition ret {A : Type} (a : A) : py A := fun out => (out, Ok a).

Definition bind {A B : Type} (m : py A) (k : A -> py B) : py B :=
  fun out =>
    match m out with
    | (out', Ok a) => k a out'
    | (out', Raise e) => (out', Raise e)
    end.

Definition lift {A : Type} (o : outcome A) : py A := fun out => (out, o).

Definition print (l : line) : py unit := fun out => (out ++ [l], Ok tt).

Notation "x <- m ;; k" := (bind m (fun x => k))
  (at level 61, m at next level, right associativity).
Notation "m ;;; k" := (bind m (fun _ => k))
  (at level 61, right associativity).

Fixpoint for_each {X : Type} (l : list X) (body : X -> py unit) : py unit :=
  match l with
  | [] => ret tt
  | v :: l' => body v ;;; for_each l' body
  end.

Definition enumerate {X : Type} (l : list X) : list (nat * X) :=
  combine (seq 0 (length l)) l.

(** The values of lines 87, 88, 97 and 98, for operands of agreeing
    shapes. *)
Definition port_return (optimal_weights mean_returns : Series) : float :=
  np_dot optimal_weights mean_returns.

Definition port_volatility (optimal_weights : Series)
           (cov_matrix : list (list float)) : float :=
  sqrt (np_dot optimal_weights (np_matvec cov_matrix optimal_weights)).

Definition annual_return (optimal_weights mean_returns : Series) : float :=
  port_return optimal_weights mean_returns * 252.

Definition annual_volatility (optimal_weights : Series)
           (cov_matrix : list (list float)) : float :=
  port_volatility optimal_weights cov_matrix * sqrt 252.

(** Lines 102 and 103. *)
Definition allocation_amount (optimal_weights : Series) (investment_limit : Z)
  : outcome Series :=
  times_int optimal_weights investment_limit.

Definition num_shares (allocation_amount latest_prices : Series) : outcome (list Z) :=
  obind (truediv allocation_amount latest_prices) astype_int.

(** The share counts are a series with the labels of [latest_prices],
    which [main] takes from the frame that gives [tickers]. *)
Definition print_allocation (optimal_weights : Series) (tickers : list string)
           (mean_returns : Series) (cov_matrix : list (list float))
           (investment_limit : Z) (latest_prices : Series) : py unit :=
  _ <- lift (dot optimal_weights mean_returns) ;;
  _ <- lift (matvec cov_matrix optimal_weights) ;;
  _ <- lift (dot optimal_weights (np_matvec cov_matrix optimal_weights)) ;;
  print (Text "Optimal Portfolio Allocation:") ;;;
  for_each (enumerate tickers) (fun it =>
    w <- lift (getitem optimal_weights (fst it)) ;;
    print (WeightPct (snd it) (w * 100))) ;;;
  print (DailyReturnPct (port_return optimal_weights mean_returns * 100)) ;;;
  print (DailyVolatilityPct (port_volatility optimal_weights cov_matrix * 100)) ;;;
  print (AnnualReturnPct (annual_return optimal_weights mean_returns * 100)) ;;;
  print (AnnualVolatilityPct (annual_volatility optimal_weights cov_matrix * 100)) ;;;
  amount <- lift (allocation_amount optimal_weights investment_limit) ;;
  shares <- lift (num_shares amount latest_prices) ;;
  print (PlanHeader investment_limit) ;;;
  for_each (enumerate tickers) (fun it =>
    a <- lift (getitem amount (fst it)) ;;
    n <- lift (loc tickers shares (Int (Z.of_nat (fst it)))) ;;
    p <- lift (getitem latest_prices (fst it)) ;;
    print (PlanLine (snd it) a n p)).

(** The allocation planner of the specification: the dollar amounts and
    the share counts of lines 102 and 103. *)
Definition plan (optimal_weights : Series) (investment_limit : Z)
           (latest_prices : Series) : outcome (Series * list Z) :=
  obind (allocation_amount optimal_weights investment_limit) (fun amount =>
  obind (num_shares amount latest_prices) (fun shares =>
  Ok (amount, shares))).

(* ------------------------------------------------------------------ *)
(** ** Quantities of the statements *)

(** Every row has one entry per column. *)
Definition well_shaped (df : DataFrame) : Prop :=
  Forall (fun r => length r = length (columns df)) (rows df).

(** A price history of [n] days on which no price changes. *)
Definition constant_prices (cols : list string) (ps : Series) (n : nat) : DataFrame :=
  mkFrame cols (repeat ps n).

(** The result of the solver call that [optimize_portfolio] makes. *)
Definition solver_result (minimize : Solver) (adj_close : DataFrame)
  : OptimizeResult + string :=
  solve minimize adj_close (mean (dropna (pct_change adj_close))).

(** The quotients that line 103 casts to integers. *)
Definition quotients (amount latest_prices : Series) : Series :=
  map (fun ap => fst ap / snd ap) (combine amount latest_prices).

(** The lines [print_allocation] writes before line 102. *)
Definition report_lines (w : Series) (tickers : list string)
           (mean_returns : Series) (cov_matrix : list (list float)) : list line :=
  [Text "Optimal Portfolio Allocation:"] ++
  map (fun it => WeightPct (snd it) (nth (fst it) w NaN * 100))
      (enumerate tickers) ++
  [DailyReturnPct (port_return w mean_returns * 100);
   DailyVolatilityPct (port_volatility w cov_matrix * 100);
   AnnualReturnPct (annual_return w mean_returns * 100);
   AnnualVolatilityPct (annual_volatility w cov_matrix * 100)].

(** A price that can be divided by: finite and not zero. *)
Definition usable (p : float) : Prop := is_finite p = true /\ is_zero p = false.

(** The first entry of the covariance matrix of a result. *)
Definition first_cov (o : outcome (DataFrame * Series * list (list float))) : float :=
  match o with
  | Ok (_, _, (v :: _) :: _) => v
  | _ => 0
  end.

(** Sums over the rationals: the cost of the shares bought, and the
    quadratic form [w^T . C . w]. *)
Definition Qsum (l : list Q) : Q := fold_right Qplus 0%Q l.

Definition Qdot (u v : list Q) : Q :=
  Qsum (map (fun p => (fst p * snd p)%Q) (combine u v)).

Definition Qquad (w : list Q) (c : list (list Q)) : Q :=
  Qdot w (map (fun r => Qdot r w) c).

Definition total_cost (shares : list Z) (ps : Series) : Q :=
  Qsum (map (fun np => (inject_Z (fst np) * value (snd np))%Q) (combine shares ps)).

(** A matrix of floats is positive semi-definite: the quadratic form
    of its values is negative at no rational vector. *)
Definition positive_semidefinite (c : list (list float)) : Prop :=
  forall w : list Q, length w = length c ->
                     (0 <= Qquad w (map (map value) c))%Q.

(* ------------------------------------------------------------------ *)
(** ** The statements of the specification, as written *)

(** "If the solver does not converge the engine fails with
    [OptimizationDivergedError]; whenever it returns a weight vector the
    solver converged." *)
Definition diverged_spec (minimize : Solver) (adj_close : DataFrame) : Prop :=
  (forall result, solver_result minimize adj_close = inl result ->
                  success result = false ->
                  optimize_portfolio minimize adj_close = Raise OptimizationDivergedError) /\
  (forall r, optimize_portfolio minimize adj_close = Ok r ->
             exists result, solver_result minimize adj_close = inl result /\
                            success result = true).

(** "The statistics fail with [InsufficientDataError] exactly when there
    are fewer than two time points or the cleaned series is empty." *)
Definition insufficient_data_spec (adj_close : DataFrame) : Prop :=
  return_statistics adj_close = Raise InsufficientDataError <->
  ((length (rows adj_close) < 2)%nat \/ rows (dropna (pct_change adj_close)) = []).

(** "Two time points and one asset give one return,
    [(price[1] - price[0]) / price[0]], the mean equal to it, and
    covariance 0." *)
Definition two_point_spec (c : string) (p0 p1 : float) : Prop :=
  let r := (p1 - p0) / p0 in
  return_statistics (mkFrame [c] [[p0]; [p1]]) =
  Ok (mkFrame [c] [[r]], [r], [[0]]).

(** "The mean returns are all zero and the covariances are all zero." *)
Definition zero_statistics_spec (df : DataFrame) : Prop :=
  let m := length (columns df) in
  exists returns,
    return_statistics df =
    Ok (returns, repeat 0 m, repeat (repeat 0 m) m).

(** "Clamped to be at least 0 before the square root." *)
Definition clamp0 (v : float) : float := if v <? 0 then 0 else v.

(** "Period return [w . mean]; period volatility the square root of the
    clamped [w^T . Cov . w]; annual return the period return times 252;
    annual volatility the period volatility times the square root of
    252." *)
Definition metrics_spec (w mean_returns : Series)
           (cov_matrix : list (list float)) : Prop :=
  port_return w mean_returns = np_dot w mean_returns /\
  port_volatility w cov_matrix =
    sqrt (clamp0 (np_dot w (np_matvec cov_matrix w))) /\
  annual_return w mean_returns = port_return w mean_returns * 252 /\
  annual_volatility w cov_matrix = port_volatility w cov_matrix * sqrt 252.

(** "The dollar amount is [w * B] and the share count is the floor of
    the dollar amount divided by the price." *)
Definition allocation_spec (w : Series) (b : Z) (ps : Series) : Prop :=
  exists amount shares,
    plan w b ps = Ok (amount, shares) /\
    amount = map (fun wi => wi * of_Z b) w /\
    shares = map (fun ap => Qfloor (value (fst ap) / value (snd ap)))
                 (combine amount ps).

(** "A latest price that is at most 0 or undefined." *)
Definition price_invalid (p : float) : bool := (p <=? 0) || is_nan p.

(** "The planner fails with [InvalidPriceError] exactly when some latest
    price is invalid; when all prices are positive it succeeds." *)
Definition invalid_price_spec (w : Series) (b : Z) (ps : Series) : Prop :=
  (plan w b ps = Raise InvalidPriceError <-> existsb price_invalid ps = true) /\
  (existsb price_invalid ps = false -> exists r, plan w b ps = Ok r).

(** "For each asset the shares cost at most its dollar amount, and all
    the shares together at most the budget." *)
Definition never_overspends_spec (w : Series) (b : Z) (ps : Series) : Prop :=
  forall amount shares,
    plan w b ps = Ok (amount, shares) ->
    Forall (fun t => (inject_Z (snd t) * value (snd (fst t)) <= value (fst (fst t)))%Q)
           (combine (combine amount ps) shares) /\
    (total_cost shares ps <= inject_Z b)%Q.

(* ------------------------------------------------------------------ *)
(** ** Inputs of the examples *)

Definition one_day : DataFrame := mkFrame ["AAA"%string] [[100]].

Definition three_days : DataFrame :=
  mkFrame ["AAA"%string; "BBB"%string]
          [[100; 50]; [110; 45]; [121; 54]].

(** A solver that stops at its starting point and reports that the
    iteration limit was reached (SLSQP's exit mode 9). *)
Definition stalled : Solver :=
  fun _ x0 _ _ _ => inl (mkResult x0 false 9).

(** A solver that refuses its arguments. *)
Definition refusing : Solver :=
  fun _ _ _ _ _ => inr "refused"%string.

(** The weights 0.5, 0.3, 0.2 and the prices 100, 50, 25 of the
    specification's example. *)
Definition example_weights : Series := [0.5; 0.3; 0.2].
Definition example_prices : Series := [100; 50; 25].

Definition two_tickers : list string := ["AAA"%string; "BBB"%string].
Definition two_prices : Series := [100; 50].

Definition example_means : Series := [0.01; 0.02].

(** A covariance matrix, [(3, -2)^T (3, -2)], and weights on which its
    quadratic form is [(3 * 0.4 - 2 * 0.6)^2]. *)
Definition hedged_cov : list (list float) := [[9; -6]; [-6; 4]].
Definition hedged_weights : Series := [0.4; 0.6].
(* ------------------------------------------------------------------ *)
(** ** The command-line layer *)

(** What the market-data provider returns for one download: the price
    frames by field name ([Open], [Close], [Adj Close], ...). *)
Definition Downloaded : Type := list (string * DataFrame).

Record request : Type := mkRequest {
  req_tickers : list string;
  req_start : string;
  req_end : string
}.

(** One call of [yf.download]: it raises an exception with a text, or
    it delivers. *)
Inductive response : Type :=
| Fails (text : string)
| Delivers (data : Downloaded).

(** The provider, as seen by the program: the answer to a request given
    the number of calls made before it. *)
Definition Provider : Type := nat -> request -> response.

(** The exceptions of this layer, next to those of the numeric core.
    [SystemExit] is what [exit()] raises; it is the only one that
    [except Exception] lets through. *)
Inductive error : Type :=
| CoreError (e : exn)
| RuntimeError (text : string)
| ValueErrorText (text : string)
| EOFError
| SystemExit.

Definition is_exception (e : error) : bool :=
  match e with SystemExit => false | _ => true end.

(** What is written or shown, with numbers and exceptions as they are
    before they are formatted. *)
Inductive event : Type :=
| Prompt (text : string)
| RateLimited (attempt retries : nat)
| DownloadFailed (text : string)
| FetchFailed (e : error)
| NoValidData
| Printed (l : line)
| Figure (curves : list (string * Series))
| MainFailed (e : error).

(** The world the program runs in: the lines still to be read from
    standard input, what was written, the seconds slept and the
    requests sent to the provider. *)
Record world : Type := mkWorld {
  stdin : list string;
  stdout : list event;
  slept : nat;
  calls : list request
}.

Inductive result (A : Type) : Type :=
| Done (a : A)
| Failed (e : error).
Arguments Done {A} a.
Arguments Failed {A} e.

Definition cli (A : Type) : Type := world -> world * result A.

Definition cret {A : Type} (a : A) : cli A := fun w => (w, Done a).

Definition cbind {A B : Type} (m : cli A) (k : A -> cli B) : cli B :=
  fun w =>
    match m w with
    | (w', Done a) => k a w'
    | (w', Failed e) => (w', Failed e)
    end.

Definition craise {A : Type} (e : error) : cli A := fun w => (w, Failed e).

Definition emit (ev : event) : cli unit :=
  fun w => (mkWorld (stdin w) (stdout w ++ [ev]) (slept w) (calls w), Done tt).

Definition sleep (seconds : nat) : cli unit :=
  fun w => (mkWorld (stdin w) (stdout w) (slept w + seconds) (calls w), Done tt).

(** [input(prompt)]: the prompt is written, then a line is read;
    [EOFError] at the end of the input. *)
Definition input (prompt : string) : cli string :=
  fun w =>
    match stdin w with
    | [] => (mkWorld [] (stdout w ++ [Prompt prompt]) (slept w) (calls w),
             Failed EOFError)
    | l :: rest => (mkWorld rest (stdout w ++ [Prompt prompt]) (slept w) (calls w),
                    Done l)
    end.

Definition of_outcome {A : Type} (o : outcome A) : cli A :=
  fun w => match o with
           | Ok a => (w, Done a)
           | Raise e => (w, Failed (CoreError e))
           end.

(** A call of the numeric core that prints: its lines are appended to
    what was written. *)
Definition of_py {A : Type} (m : py A) : cli A :=
  fun w =>
    let (out, o) := m [] in
    of_outcome o (mkWorld (stdin w) (stdout w ++ map Printed out) (slept w) (calls w)).

(** [try: body except Exception as e: handler(e)] *)
Definition try_except {A : Type} (body : cli A) (handler : error -> cli A) : cli A :=
  fun w =>
    match body w with
    | (w', Failed e) => if is_exception e then handler e w' else (w', Failed e)
    | done => done
    end.

Notation "x <~ m ;; k" := (cbind m (fun x => k))
  (at level 61, m at next level, right associativity).
Notation "m ;;> k" := (cbind m (fun _ => k))
  (at level 61, right associativity).

(** [needle in hay] on strings. *)
Fixpoint contains (needle hay : string) : bool :=
  if prefix needle hay then true
  else match hay with
       | EmptyString => false
       | String _ rest => contains needle rest
       end.

(** [df.dropna(axis=1, how="all")]: the columns with at least one value
    that is not NaN. *)
Definition kept_columns (df : DataFrame) : list nat :=
  filter (fun j => existsb (fun v => negb (isnan v)) (column df j))
         (seq 0 (length (columns df))).

Definition dropna_columns (df : DataFrame) : DataFrame :=
  let keep := kept_columns df in
  mkFrame (map (fun j => nth j (columns df) EmptyString) keep)
          (map (fun r => map (fun j => nth j r NaN) keep) (rows df)).

(** [df.iloc[0]] and [df.iloc[-1]] *)
Definition iloc_first (df : DataFrame) : outcome Series :=
  match rows df with
  | [] => Raise IndexError
  | r :: _ => Ok r
  end.

Definition iloc_last (df : DataFrame) : outcome Series :=
  match rows df with
  | [] => Raise IndexError
  | r :: rs => Ok (last rs r)
  end.

(** [df / row]: every row divided by [row], column by column. *)
Definition divide_rows (df : DataFrame) (row : Series) : DataFrame :=
  mkFrame (columns df)
          (map (fun r => map (fun p => fst p / snd p) (combine r row)) (rows df)).

(** [df * array]: one factor per column; refused when their numbers
    differ. *)
Definition times_array (df : DataFrame) (a : Series) : outcome DataFrame :=
  if (length a =? length (columns df))%nat
  then Ok (mkFrame (columns df)
                   (map (fun r => map (fun p => fst p * snd p) (combine r a))
                        (rows df)))
  else Raise ValueError.

(** [row.sum()], which skips NaN. *)
Definition nansum (r : Series) : float :=
  np_sum (filter (fun v => negb (isnan v)) r).

(** [df.empty] *)
Definition empty (df : DataFrame) : bool :=
  match rows df, columns df with
  | [], _ | _, [] => true
  | _, _ => false
  end.

(** [data[name]] *)
Fixpoint field (name : string) (data : Downloaded) : cli DataFrame :=
  match data with
  | [] => craise (CoreError (KeyError (Str name)))
  | (k, df) :: rest => if String.eqb k name then cret df else field name rest
  end.

Definition retry_failure : error :=
  RuntimeError "Failed to download data after several retries.".

Section CommandLine.

(** [yf.download], [str.upper], [int] on a string ([None] for its
    [ValueError]) and whether [strptime] accepts a date. *)
Variable provider : Provider.
Variable upper : string -> string.
Variable py_int : string -> option Z.
Variable is_date : string -> bool.
Variable minimize : Solver.

Definition download (req : request) : cli response :=
  fun w => (mkWorld (stdin w) (stdout w) (slept w) (calls w ++ [req]),
            Done (provider (length (calls w)) req)).

(** The loop of [safe_download] with [remaining] iterations to go:
    [attempt + 1] is [retries - remaining + 1]. *)
Fixpoint attempts (req : request) (retries remaining : nat) : cli Downloaded :=
  match remaining with
  | O => craise retry_failure
  | S r =>
      resp <~ download req ;;
      match resp with
      | Delivers data => cret data
      | Fails text =>
          if contains "Too Many Requests" text
          then emit (RateLimited (retries - r) retries) ;;>
               sleep 10 ;;>
               attempts req retries r
          else emit (DownloadFailed text) ;;>
               craise retry_failure
      end
  end.

Definition safe_download (req : request) (retries : nat) : cli Downloaded :=
  attempts req retries retries.

Definition ticker_prompts : list string :=
  ["Enter ticker symbol of stock 1: "%string;
   "Enter ticker symbol of stock 2: "%string;
   "Enter ticker symbol of stock 3: "%string].

Fixpoint read_tickers (prompts : list string) (stocks : list string)
  : cli (list string) :=
  match prompts with
  | [] => cret stocks
  | p :: rest => ticker <~ input p ;; read_tickers rest (stocks ++ [upper ticker])
  end.

Definition get_user_inputs : cli (list string * Z * string * string) :=
  stocks <~ read_tickers ticker_prompts [] ;;
  text <~ input "Enter your investment budget in dollars: " ;;
  match py_int text with
  | None => craise (ValueErrorText "Investment budget must be an integer.")
  | Some budget =>
      start_date <~ input "Enter start date (YYYY-MM-DD): " ;;
      end_date <~ input "Enter end date (YYYY-MM-DD): " ;;
      if is_date start_date && is_date end_date
      then cret (stocks, budget, start_date, end_date)
      else craise (ValueErrorText "Dates must be in the format YYYY-MM-DD.")
  end.

(** The index closes are a frame of one column (a [Series] where the
    provider's columns are flat); dividing by its first row is the same
    for both. *)
Definition fetch_data (stocks : list string) (start_date end_date : string)
  : cli (DataFrame * DataFrame) :=
  try_except
    (data <~ safe_download (mkRequest stocks start_date end_date) 3 ;;
     prices <~ field "Adj Close" data ;;
     let adj_close := dropna_columns prices in
     index <~ safe_download (mkRequest ["^GSPC"%string] start_date end_date) 3 ;;
     closes <~ field "Adj Close" index ;;
     let sp500 := dropna closes in
     first <~ of_outcome (iloc_first sp500) ;;
     let sp500_normalized := divide_rows sp500 first in
     cret (adj_close, sp500_normalized))
    (fun e => emit (FetchFailed e) ;;> craise SystemExit).

(** The curves of the figure: one per ticker, the portfolio, the
    index.  A column is read by its position, the column labels being
    distinct; the figure stands for the calls of [plt], the last of
    which shows it.  The budget is the same Python integer in every
    product: it is converted once. *)
Definition scaled_column (df : DataFrame) (limit : float) (j : nat) : Series :=
  map (fun v => v * limit) (column df j).

Definition plot_performance (adj_close : DataFrame) (weights : Series)
           (sp500_norm : DataFrame) (investment_limit : Z) : cli unit :=
  let tickers := columns adj_close in
  first <~ of_outcome (iloc_first adj_close) ;;
  let normalized_prices := divide_rows adj_close first in
  weighted <~ of_outcome (times_array normalized_prices weights) ;;
  limit <~ of_outcome (of_int investment_limit) ;;
  let portfolio_value := map (fun r => nansum r * limit) (rows weighted) in
  emit (Figure
          (map (fun it => (snd it, scaled_column normalized_prices limit (fst it)))
               (enumerate tickers) ++
           [("Optimized Portfolio"%string, portfolio_value)] ++
           map (fun j => ("S&P 500"%string, scaled_column sp500_norm limit j))
               (seq 0 (length (columns sp500_norm))))).

Definition main : cli unit :=
  try_except
    (inputs <~ get_user_inputs ;;
     let '(stocks, budget, start_date, end_date) := inputs in
     fetched <~ fetch_data stocks start_date end_date ;;
     let '(adj_close, sp500_norm) := fetched in
     if empty adj_close
     then emit NoValidData
     else
       optimum <~ of_outcome (optimize_portfolio minimize adj_close) ;;
       let '(optimal_weights, mean_returns, cov_matrix) := optimum in
       latest_prices <~ of_outcome (iloc_last adj_close) ;;
       of_py (print_allocation optimal_weights (columns adj_close)
                               mean_returns cov_matrix budget latest_prices) ;;>
       plot_performance adj_close optimal_weights sp500_norm budget)
    (fun e => emit (MainFailed e)).

End CommandLine.

(** The failures that [safe_download] retries. *)
Definition rate_limited (resp : response) : bool :=
  match resp with
  | Fails text => contains "Too Many Requests" text
  | Delivers _ => false
  end.

(** The world after [k] rate-limited attempts, the first of them being
    attempt number [from]. *)
Definition after_rate_limits (req : request) (retries from k : nat) (w : world) : world :=
  mkWorld (stdin w)
          (stdout w ++ map (fun i => RateLimited (from + i) retries) (seq 0 k))
          (slept w + 10 * k)
          (calls w ++ repeat req k).

(** At most [n] requests to the provider and [s] seconds of sleep. *)
Definition effort {A : Type} (n s : nat) (m : cli A) : Prop :=
  forall w, exists extra,
    calls (fst (m w)) = calls w ++ extra /\ (length extra <= n)%nat /\
    (slept w <= slept (fst (m w)) <= slept w + s)%nat.

(** The questions of [get_user_inputs], in their order. *)
Definition input_prompts : list event :=
  [Prompt "Enter ticker symbol of stock 1: ";
   Prompt "Enter ticker symbol of stock 2: ";
   Prompt "Enter ticker symbol of stock 3: ";
   Prompt "Enter your investment budget in dollars: ";
   Prompt "Enter start date (YYYY-MM-DD): ";
   Prompt "Enter end date (YYYY-MM-DD): "].

(** A run that ends with [SystemExit] has just written why the data
    could not be fetched. *)
Definition exit_is_announced {A : Type} (m : cli A) : Prop :=
  forall w, snd (m w) = Failed SystemExit ->
            exists e hist, stdout (fst (m w)) = hist ++ [FetchFailed e].

(** A run that shows no figure: what it writes has no [Figure]. *)
Definition is_figure (ev : event) : bool :=
  match ev with Figure _ => true | _ => false end.

Definition shows_no_figure {A : Type} (m : cli A) : Prop :=
  forall w, exists more,
    stdout (fst (m w)) = stdout w ++ more /\ existsb is_figure more = false.

(** A run that ends with an exception, and a statement sequence that
    does. *)
Definition fails {A : Type} (m : cli A) : Prop :=
  forall w, exists e, snd (m w) = Failed e.

Definition always_raises {A : Type} (m : py A) : Prop :=
  forall out, exists out' e, m out = (out', Raise e).

(* ------------------------------------------------------------------ *)
(** ** Inputs of the examples, continued *)

Definition no_world : world := mkWorld [] [] 0 [].

Definition sample_prices : DataFrame :=
  mkFrame ["AAA"%string; "BBB"%string; "CCC"%string]
          [[100; 50; NaN]; [110; 45; NaN]; [121; 54; NaN]].

Definition sample_index : DataFrame :=
  mkFrame ["^GSPC"%string] [[NaN]; [4000]; [4100]].

Definition sample_request : request :=
  mkRequest ["AAA"%string; "BBB"%string; "CCC"%string] "2020-01-01" "2020-01-04".

(** A provider that is busy once, then delivers the prices and then the
    index; one that is always busy; one that has no data. *)
Definition busy_once : Provider :=
  fun n _ =>
    match n with
    | O => Fails "429 Too Many Requests"
    | S O => Delivers [("Close"%string, sample_index); ("Adj Close"%string, sample_prices)]
    | _ => Delivers [("Adj Close"%string, sample_index)]
    end.

Definition always_busy : Provider := fun _ _ => Fails "Too Many Requests".

Definition no_data : Provider := fun _ _ => Fails "No data found".

(** Instances of the library functions for the examples: upper case of
    the ASCII letters, non-empty strings of decimal digits, and dates
    spelled [dddd-dd-dd]. *)
Definition upper_char (c : Ascii.ascii) : Ascii.ascii :=
  let n := Ascii.nat_of_ascii c in
  if ((97 <=? n) && (n <=? 122))%nat then Ascii.ascii_of_nat (n - 32) else c.

Fixpoint upper_ascii (s : string) : string :=
  match s with
  | EmptyString => EmptyString
  | String c rest => String (upper_char c) (upper_ascii rest)
  end.

Definition digit (c : Ascii.ascii) : option Z :=
  let n := Ascii.nat_of_ascii c in
  if ((48 <=? n) && (n <=? 57))%nat then Some (Z.of_nat (n - 48)) else None.

Fixpoint digits (s : string) (acc : Z) : option Z :=
  match s with
  | EmptyString => Some acc
  | String c rest =>
      match digit c with
      | Some d => digits rest (10 * acc + d)%Z
      | None => None
      end
  end.

Definition int_of_digits (s : string) : option Z :=
  match s with
  | EmptyString => None
  | _ => digits s 0%Z
  end.

Definition looks_like_date (s : string) : bool :=
  match s with
  | String y1 (String y2 (String y3 (String y4 (String d1
      (String m1 (String m2 (String d2 (String a1 (String a2 EmptyString))))))))) =>
      match digits (String y1 (String y2 (String y3 (String y4
                     (String m1 (String m2 (String a1 (String a2 EmptyString)))))))) 0%Z with
      | Some _ => ((Ascii.nat_of_ascii d1 =? 45) && (Ascii.nat_of_ascii d2 =? 45))%nat
      | None => false
      end
  | _ => false
  end.

Definition asked : world :=
  mkWorld ["aapl"%string; "msft"%string; "goog"%string; "ten thousand"%string;
           "2020-01-01"%string]
          [] 0 [].

(** The answers of a user who asks for three tickers, 10000 dollars
    and four days. *)
Definition answered : world :=
  mkWorld ["aapl"%string; "msft"%string; "goog"%string; "10000"%string;
           "2020-01-01"%string; "2020-01-04"%string]
          [] 0 [].

(* ------------------------------------------------------------------ *)
(** * Theorems *)

(** ** Binary64 arithmetic

    The primitive operations are specified by Rocq's [SpecFloat]: the
    operation on the exact values, followed by [binary_round_aux], which
    shifts the mantissa to the exponent of the format and rounds it.
    The lemmas below read the results this gives for the operands the
    program meets. *)

Local Open Scope Z_scope.

Lemma fexp_eq e : fexp prec emax e = Z.max (e - 53) (-1074).
Proof. reflexivity. Qed.

Lemma digits2_size p : digits2_pos p = Pos.size p.
Proof. induction p; simpl; congruence. Qed.

Lemma Zdigits2_pos p : 1 <= Zdigits2 (Zpos p).
Proof. simpl. lia. Qed.

Lemma Zdigits2_bounds p :
  2 ^ (Zdigits2 (Zpos p) - 1) <= Zpos p < 2 ^ Zdigits2 (Zpos p).
Proof.
  cbn [Zdigits2]. rewrite digits2_size.
  pose proof (Pos.size_gt p) as G. pose proof (Pos.size_le p) as L.
  apply Pos2Z.pos_lt_pos in G. apply Pos2Z.pos_le_pos in L.
  rewrite Pos2Z.inj_pow in G, L.
  split; [|exact G].
  replace (Z.pos (Pos.size p)) with (Z.succ (Z.pos (Pos.size p) - 1)) in L by lia.
  rewrite Z.pow_succ_r in L by lia. lia.
Qed.

Lemma Zdigits2_le_iff p k : 0 <= k -> (Zdigits2 (Zpos p) <= k <-> Zpos p < 2 ^ k).
Proof.
  intros Hk. pose proof (Zdigits2_bounds p) as [L U]. pose proof (Zdigits2_pos p) as P.
  split; intros H.
  - eapply Z.lt_le_trans; [exact U|]. apply Z.pow_le_mono_r; lia.
  - destruct (Z.le_gt_cases (Zdigits2 (Zpos p)) k) as [C|C]; [exact C|].
    assert (2 ^ k <= 2 ^ (Zdigits2 (Zpos p) - 1)) by (apply Z.pow_le_mono_r; lia).
    lia.
Qed.

Lemma Zdigits2_gt_iff p k : 0 <= k -> (k < Zdigits2 (Zpos p) <-> 2 ^ k <= Zpos p).
Proof.
  intros Hk. pose proof (Zdigits2_le_iff p k Hk). lia.
Qed.

(** Shifting a rounding record to the right. *)
Lemma shr_1_m mrs : 0 <= shr_m mrs -> shr_m (shr_1 mrs) = shr_m mrs / 2.
Proof.
  destruct mrs as [m r s]. cbn [shr_m]. intros H.
  rewrite <- Z.div2_div.
  destruct m as [|[p|p|]|p]; try reflexivity. lia.
Qed.

Lemma iter_shr_m p : forall mrs, 0 <= shr_m mrs ->
  shr_m (iter_pos shr_1 p mrs) = shr_m mrs / 2 ^ Zpos p.
Proof.
  induction p as [p IH|p IH|]; intros mrs H; cbn [iter_pos].
  - assert (H1 : 0 <= shr_m (shr_1 mrs)) by (rewrite shr_1_m by exact H; apply Z.div_pos; lia).
    assert (H2 : 0 <= shr_m (iter_pos shr_1 p (shr_1 mrs)))
      by (rewrite IH by exact H1; apply Z.div_pos; [exact H1 | apply Z.pow_pos_nonneg; lia]).
    rewrite IH by exact H2. rewrite IH by exact H1. rewrite shr_1_m by exact H.
    assert (P : 0 < 2 ^ Zpos p) by (apply Z.pow_pos_nonneg; lia).
    rewrite !Z.div_div by lia. f_equal.
    replace (Z.pos p~1) with (1 + (Z.pos p + Z.pos p)) by lia.
    rewrite !Z.pow_add_r by lia. change (2 ^ 1) with 2. lia.
  - assert (H2 : 0 <= shr_m (iter_pos shr_1 p mrs))
      by (rewrite IH by exact H; apply Z.div_pos; [exact H | apply Z.pow_pos_nonneg; lia]).
    rewrite IH by exact H2. rewrite IH by exact H.
    assert (P : 0 < 2 ^ Zpos p) by (apply Z.pow_pos_nonneg; lia).
    rewrite !Z.div_div by lia. f_equal.
    replace (Z.pos p~0) with (Z.pos p + Z.pos p) by lia.
    rewrite !Z.pow_add_r by lia. lia.
  - rewrite shr_1_m by exact H. reflexivity.
Qed.

Lemma shr_m_of_loc m l : shr_m (shr_record_of_loc m l) = m.
Proof. destruct l as [|[]]; reflexivity. Qed.

(** The first component of [shr_fexp]: the mantissa divided by the
    power of two that the exponent gains. *)
Lemma shr_fexp_spec m e l :
  0 <= m ->
  let n := fexp prec emax (Zdigits2 m + e) - e in
  (n <= 0 -> shr_fexp prec emax m e l = (shr_record_of_loc m l, e)) /\
  (0 < n -> exists mrs, shr_fexp prec emax m e l = (mrs, e + n) /\
                        shr_m mrs = m / 2 ^ n).
Proof.
  intros H n. unfold shr_fexp, shr. fold n.
  split; intros Hn.
  - destruct n; try reflexivity. lia.
  - destruct n as [|p|p]; try lia.
    eexists. split; [reflexivity|].
    rewrite iter_shr_m by (now rewrite shr_m_of_loc).
    now rewrite shr_m_of_loc.
Qed.

Lemma round_nearest_even_bounds m l :
  m <= round_nearest_even m l <= m + 1.
Proof.
  unfold round_nearest_even. destruct l as [|[]]; try lia.
  destruct (Z.even m); lia.
Qed.

Lemma pow2_split a b : 0 <= a -> 0 <= b -> 2 ^ (a + b) = 2 ^ a * 2 ^ b.
Proof. intros. now rewrite Z.pow_add_r. Qed.

(** The first pass of the rounding of a positive mantissa. *)
Lemma shr_fexp_first p ex lx :
  -1074 <= ex ->
  let d := Zdigits2 (Zpos p) in
  exists mrs,
    shr_fexp prec emax (Zpos p) ex lx = (mrs, Z.max ex (d + ex - 53)) /\
    1 <= shr_m mrs < 2 ^ 53 /\
    (53 < d -> 2 ^ 52 <= shr_m mrs) /\
    (d <= 53 -> shr_m mrs = Zpos p).
Proof.
  intros He d.
  pose proof (Zdigits2_bounds p) as [L U]. fold d in L, U.
  pose proof (Zdigits2_pos p) as P. fold d in P.
  destruct (shr_fexp_spec (Zpos p) ex lx) as [N S]; [lia|].
  fold d in N, S. rewrite fexp_eq in N, S.
  destruct (Z_lt_le_dec 53 d) as [C|C].
  - destruct S as (mrs & E & M); [lia|].
    exists mrs. replace (Z.max ex (d + ex - 53)) with (ex + (Z.max (d + ex - 53) (-1074) - ex)) by lia.
    split; [exact E|].
    replace (Z.max (d + ex - 53) (-1074) - ex) with (d - 53) in M by lia.
    assert (K : 0 < 2 ^ (d - 53)) by (apply Z.pow_pos_nonneg; lia).
    assert (A : 2 ^ d = 2 ^ (d - 53) * 2 ^ 53)
      by (rewrite <- pow2_split by lia; f_equal; lia).
    assert (B : 2 ^ (d - 1) = 2 ^ (d - 53) * 2 ^ 52)
      by (rewrite <- pow2_split by lia; f_equal; lia).
    assert (Lo : 2 ^ 52 <= Zpos p / 2 ^ (d - 53))
      by (apply Z.div_le_lower_bound; lia).
    assert (Hi : Zpos p / 2 ^ (d - 53) < 2 ^ 53)
      by (apply Z.div_lt_upper_bound; lia).
    rewrite M. repeat split; try lia.
  - exists (shr_record_of_loc (Zpos p) lx).
    rewrite N by lia. rewrite shr_m_of_loc.
    replace (Z.max ex (d + ex - 53)) with ex by lia.
    split; [reflexivity|].
    assert (Zpos p < 2 ^ 53) by (apply (Zdigits2_le_iff p 53); [lia | exact C]).
    repeat split; try lia.
Qed.

(** The second pass: the rounded mantissa has at most one digit too
    many. *)
Lemma shr_fexp_second q e1 :
  -1074 <= e1 -> Zpos q <= 2 ^ 53 ->
  exists mrs,
    shr_fexp prec emax (Zpos q) e1 loc_Exact =
      (mrs, if Zpos q =? 2 ^ 53 then e1 + 1 else e1) /\
    shr_m mrs = (if Zpos q =? 2 ^ 53 then 2 ^ 52 else Zpos q).
Proof.
  intros He Hq.
  destruct (shr_fexp_spec (Zpos q) e1 loc_Exact) as [N S]; [lia|].
  rewrite fexp_eq in N, S.
  destruct (Z.eqb_spec (Zpos q) (2 ^ 53)) as [E|E].
  - assert (D : Zdigits2 (Zpos q) = 54) by (rewrite E; reflexivity).
    rewrite D in S. destruct S as (mrs & E1 & M); [lia|].
    exists mrs. replace (Z.max (54 + e1 - 53) (-1074) - e1) with 1 in E1, M by lia.
    split; [exact E1|]. rewrite M, E. reflexivity.
  - assert (Zdigits2 (Zpos q) <= 53) by (apply Zdigits2_le_iff; lia).
    exists (shr_record_of_loc (Zpos q) loc_Exact).
    rewrite N by lia. split; reflexivity.
Qed.

Lemma bounded_iff m e :
  bounded prec emax m e = true <->
  Z.max (Zdigits2 (Zpos m) + e - 53) (-1074) = e /\ e <= 971.
Proof.
  unfold bounded, canonical_mantissa. rewrite andb_true_iff, Z.eqb_eq, Z.leb_le.
  rewrite fexp_eq. reflexivity.
Qed.

(** A valid mantissa above the smallest exponent has 53 digits. *)
Lemma bounded_normal m e :
  bounded prec emax m e = true -> -1074 < e -> 2 ^ 52 <= Zpos m < 2 ^ 53.
Proof.
  rewrite bounded_iff. intros [C _] H.
  assert (D : Zdigits2 (Zpos m) = 53) by lia.
  split.
  - apply Zdigits2_gt_iff; lia.
  - apply Zdigits2_le_iff; lia.
Qed.

(** Rounding a positive mantissa whose exponent is not below the
    smallest one gives a finite number of the same sign, or overflows.
    When the mantissa has no digit to spare the result is valid. *)
Lemma binary_round_aux_pos sx p ex lx :
  -1074 <= ex ->
  let d := Zdigits2 (Zpos p) in
  (binary_round_aux prec emax sx (Zpos p) ex lx = S754_infinity sx /\
   971 <= Z.max ex (d + ex - 53)) \/
  exists m e,
    binary_round_aux prec emax sx (Zpos p) ex lx = S754_finite sx m e /\
    Z.max ex (d + ex - 53) <= e <= Z.max ex (d + ex - 53) + 1 /\ e <= 971 /\
    (ex <= fexp prec emax (d + ex) -> bounded prec emax m e = true) /\
    (e = Z.max ex (d + ex - 53) + 1 -> m = 4503599627370496%positive).
Proof.
  intros He d. unfold binary_round_aux.
  destruct (shr_fexp_first p ex lx He) as (mrs1 & E1 & B1 & Hi1 & Lo1).
  fold d in E1, Hi1, Lo1. rewrite E1.
  set (e1 := Z.max ex (d + ex - 53)) in *.
  pose proof (round_nearest_even_bounds (shr_m mrs1) (loc_of_shr_record mrs1)) as R.
  destruct (round_nearest_even (shr_m mrs1) (loc_of_shr_record mrs1)) as [|q|q] eqn:Q;
    try lia.
  destruct (shr_fexp_second q e1) as (mrs2 & E2 & M2); [lia | lia |].
  rewrite E2, M2. rewrite fexp_eq.
  destruct (Z.eqb_spec (Zpos q) (2 ^ 53)) as [E|E].
  - change (2 ^ 52) with (Zpos 4503599627370496).
    destruct (Z.leb_spec (e1 + 1) (emax - prec)) as [C|C]; change (emax - prec) with 971 in C.
    + right. exists 4503599627370496%positive, (e1 + 1).
      split; [reflexivity|]. repeat split; try lia.
      intros _. apply bounded_iff.
      change (Zdigits2 (Zpos 4503599627370496)) with 53. lia.
    + left. split; [reflexivity | lia].
  - destruct (Z.leb_spec e1 (emax - prec)) as [C|C]; change (emax - prec) with 971 in C.
    + right. exists q, e1. split; [reflexivity|]. repeat split; try lia.
      intros A. apply bounded_iff. split; [|exact C].
      assert (U : Zdigits2 (Zpos q) <= 53) by (apply Zdigits2_le_iff; lia).
      destruct (Z_lt_le_dec 53 d) as [D|D].
      * assert (52 < Zdigits2 (Zpos q)) by (apply Zdigits2_gt_iff; lia). lia.
      * destruct (Z.eq_dec d 53) as [D'|D'].
        -- assert (2 ^ 52 <= Zpos p) by (apply Zdigits2_gt_iff; fold d; lia).
           assert (52 < Zdigits2 (Zpos q)) by (apply Zdigits2_gt_iff; lia). lia.
        -- lia.
    + left. split; [reflexivity | lia].
Qed.

Lemma digits2_shl p k : digits2_pos (Pos.iter xO p k) = (digits2_pos p + k)%positive.
Proof.
  induction k as [|k IH] using Pos.peano_ind.
  - cbn. lia.
  - rewrite Pos.iter_succ. cbn [digits2_pos]. rewrite IH. lia.
Qed.

(** [binary_round] first aligns the mantissa, so its result is valid. *)
Lemma binary_round_pos sx p ex :
  -1074 <= ex ->
  let f := fexp prec emax (Zdigits2 (Zpos p) + ex) in
  (binary_round prec emax sx p ex = S754_infinity sx /\ 971 <= f) \/
  exists m e,
    binary_round prec emax sx p ex = S754_finite sx m e /\
    f <= e <= f + 1 /\ bounded prec emax m e = true.
Proof.
  intros He f. unfold binary_round, shl_align.
  change (Zpos (digits2_pos p)) with (Zdigits2 (Zpos p)). fold f.
  assert (F : f = Z.max (Zdigits2 (Zpos p) + ex - 53) (-1074)) by (unfold f; now rewrite fexp_eq).
  destruct (f - ex) as [|k|k] eqn:K.
  - destruct (binary_round_aux_pos sx p ex loc_Exact He) as [[E B]|(m & e & E & B & C & V & _)].
    + left. split; [exact E | lia].
    + right. exists m, e. split; [exact E|]. split; [lia|]. apply V. fold f. lia.
  - destruct (binary_round_aux_pos sx p ex loc_Exact He) as [[E B]|(m & e & E & B & C & V & _)].
    + left. split; [exact E | lia].
    + right. exists m, e. split; [exact E|]. split; [lia|]. apply V. fold f. lia.
  - assert (D : Zdigits2 (Zpos (Pos.iter xO p k)) + f = Zdigits2 (Zpos p) + ex).
    { cbn [Zdigits2]. rewrite digits2_shl. lia. }
    destruct (binary_round_aux_pos sx (Pos.iter xO p k) f loc_Exact) as [[E B]|(m & e & E & B & C & V & _)];
      [lia | |].
    + left. split; [exact E | lia].
    + right. exists m, e. split; [exact E|]. rewrite D in B, V. split; [lia|].
      apply V. fold f. lia.
Qed.

(** A valid mantissa is left as it is. *)
Lemma binary_round_aux_canonical sx m e :
  bounded prec emax m e = true ->
  binary_round_aux prec emax sx (Zpos m) e loc_Exact = S754_finite sx m e.
Proof.
  intros B. pose proof B as B'. apply bounded_iff in B' as [C L].
  unfold binary_round_aux.
  destruct (shr_fexp_spec (Zpos m) e loc_Exact) as [N _]; [lia|].
  rewrite fexp_eq in N. rewrite N by lia. cbn [shr_record_of_loc shr_m loc_of_shr_record round_nearest_even].
  rewrite N by lia. cbn [shr_record_of_loc shr_m].
  destruct (Z.leb_spec e (emax - prec)) as [H|H]; [reflexivity|].
  change (emax - prec) with 971 in H. lia.
Qed.

(** So is twice a valid normal mantissa, one exponent lower. *)
Lemma binary_round_aux_twice sx m e :
  bounded prec emax m e = true -> -1074 < e ->
  binary_round_aux prec emax sx (Zpos m~0) (e - 1) loc_Exact = S754_finite sx m e.
Proof.
  intros B H. pose proof B as B'. apply bounded_iff in B' as [C L].
  assert (D : Zdigits2 (Zpos m) = 53) by lia.
  unfold binary_round_aux, shr_fexp at 1.
  assert (D2 : Zdigits2 (Zpos m~0) = 54) by (cbn [Zdigits2 digits2_pos] in *; lia).
  rewrite D2, fexp_eq.
  replace (Z.max (54 + (e - 1) - 53) (-1074) - (e - 1)) with 1 by lia.
  cbn [shr shr_record_of_loc iter_pos shr_1 shr_m loc_of_shr_record round_nearest_even orb].
  replace (e - 1 + 1) with e by lia.
  destruct (shr_fexp_spec (Zpos m) e loc_Exact) as [N _]; [lia|].
  rewrite fexp_eq in N. rewrite N by lia. cbn [shr_record_of_loc shr_m].
  destruct (Z.leb_spec e (emax - prec)) as [H'|H']; [reflexivity|].
  change (emax - prec) with 971 in H'. lia.
Qed.

(** ** Primitive floats through their specification *)

Lemma SF_nan : Prim2SF nan = S754_nan.
Proof. reflexivity. Qed.

Lemma SF_zero : Prim2SF zero = S754_zero false.
Proof. reflexivity. Qed.

Lemma SF_one : Prim2SF one = S754_finite false 4503599627370496 (-52).
Proof. reflexivity. Qed.

Lemma SF_infinity : Prim2SF infinity = S754_infinity false.
Proof. reflexivity. Qed.

Lemma SF_eq x s : Prim2SF x = s -> x = SF2Prim s.
Proof. intros <-. now rewrite SF2Prim_Prim2SF. Qed.

Lemma SFeqb_refl y : SFeqb y y = match y with S754_nan => false | _ => true end.
Proof.
  destruct y as [s|s| |s m e]; try (destruct s; reflexivity); try reflexivity.
  unfold SFeqb, SFcompare.
  destruct s; now rewrite Z.compare_refl, Pos.compare_cont_refl.
Qed.

Lemma is_nan_SF x : is_nan x = match Prim2SF x with S754_nan => true | _ => false end.
Proof.
  unfold is_nan. rewrite FloatAxioms.eqb_spec, SFeqb_refl. now destruct (Prim2SF x).
Qed.

Lemma is_nan_iff x : is_nan x = true <-> x = nan.
Proof.
  rewrite is_nan_SF. split.
  - intros H. apply Prim2SF_inj. rewrite SF_nan. now destruct (Prim2SF x).
  - intros ->. reflexivity.
Qed.

Lemma is_infinity_SF x :
  is_infinity x = match Prim2SF x with S754_infinity _ => true | _ => false end.
Proof.
  unfold is_infinity. rewrite FloatAxioms.eqb_spec, abs_spec, SF_infinity.
  now destruct (Prim2SF x) as [s|s| |s m e].
Qed.

Lemma is_finite_SF x :
  is_finite x = match Prim2SF x with
                | S754_zero _ | S754_finite _ _ _ => true
                | _ => false
                end.
Proof.
  unfold is_finite. rewrite is_nan_SF, is_infinity_SF.
  now destruct (Prim2SF x).
Qed.

Lemma is_zero_SF x :
  is_zero x = match Prim2SF x with S754_zero _ => true | _ => false end.
Proof.
  unfold is_zero. rewrite FloatAxioms.eqb_spec, SF_zero.
  now destruct (Prim2SF x) as [s|s| |s m e]; try destruct s.
Qed.

Lemma SFmul_comm x y : SFmul prec emax x y = SFmul prec emax y x.
Proof.
  destruct x as [sx|sx| |sx mx ex], y as [sy|sy| |sy my ey]; cbn [SFmul];
    try reflexivity; try (now rewrite xorb_comm).
  now rewrite xorb_comm, Pos.mul_comm, Z.add_comm.
Qed.

Lemma mul_comm (x y : float) : (x * y)%float = (y * x)%float.
Proof. apply Prim2SF_inj. rewrite !mul_spec. apply SFmul_comm. Qed.

Lemma valid_finite x s m e :
  Prim2SF x = S754_finite s m e -> bounded prec emax m e = true.
Proof. intros E. pose proof (Prim2SF_valid x) as V. now rewrite E in V. Qed.

(** ** Division *)

Lemma div_eucl_exact (a b : Z) :
  0 < b -> Z.div_eucl (a * b) b = (a, 0%Z).
Proof.
  intros H. pose proof (Z_div_mod (a * b) b ltac:(lia)) as D.
  destruct (Z.div_eucl (a * b) b) as [q r]. destruct D as [E R].
  assert (q = a) by nia. subst q. f_equal. lia.
Qed.

Lemma new_location_exact m : new_location m 0 = loc_Exact.
Proof. unfold new_location. now destruct (Z.even m). Qed.

(** A finite number that is not zero, divided by itself, is one. *)
Lemma div_same x s m e :
  Prim2SF x = S754_finite s m e -> (x / x)%float = one.
Proof.
  intros E. apply Prim2SF_inj. rewrite div_spec, E, SF_one.
  unfold SF64div, SFdiv, SFdiv_core_binary.
  rewrite xorb_nilpotent, !Z.sub_diag.
  change (Z.min (fexp prec emax 0) 0) with (-53)%Z.
  change (0 - -53)%Z with 53%Z. cbv iota.
  rewrite Z.shiftl_mul_pow2 by lia.
  rewrite Z.mul_comm, div_eucl_exact by lia.
  rewrite new_location_exact. reflexivity.
Qed.

(** Division by one changes nothing. *)
Lemma SFdiv_one y :
  valid_binary y = true ->
  SFdiv prec emax y (S754_finite false 4503599627370496 (-52)) = y.
Proof.
  destruct y as [s|s| |s m e]; intros V; try (destruct s; reflexivity); try reflexivity.
  cbn [valid_binary] in V. pose proof V as V'. apply bounded_iff in V' as [C L].
  unfold SFdiv, SFdiv_core_binary. rewrite xorb_false_r.
  change (Zdigits2 (Zpos 4503599627370496)) with 53%Z. rewrite fexp_eq.
  set (d := Zdigits2 (Zpos m)) in *.
  destruct (Z_lt_le_dec (-1074) e) as [N|N].
  - replace (Z.min (Z.max (d + e - (53 + -52) - 53) (-1074)) (e - -52)) with (e - 1)%Z by lia.
    replace (e - -52 - (e - 1))%Z with 53%Z by lia. cbv iota.
    rewrite Z.shiftl_mul_pow2 by lia.
    replace (Zpos m * 2 ^ 53)%Z with (Zpos m~0 * 4503599627370496)%Z by lia.
    rewrite div_eucl_exact by lia. rewrite new_location_exact.
    now apply binary_round_aux_twice.
  - replace (Z.min (Z.max (d + e - (53 + -52) - 53) (-1074)) (e - -52)) with e by lia.
    replace (e - -52 - e)%Z with 52%Z by lia. cbv iota.
    rewrite Z.shiftl_mul_pow2 by lia.
    change (2 ^ 52)%Z with 4503599627370496%Z.
    rewrite div_eucl_exact by lia. rewrite new_location_exact.
    now apply binary_round_aux_canonical.
Qed.

Lemma div_one (x : float) : (x / one)%float = x.
Proof.
  apply Prim2SF_inj. rewrite div_spec, SF_one. apply SFdiv_one, Prim2SF_valid.
Qed.

(** ** Sums and differences *)

Lemma add_zero_l (x : float) :
  Prim2SF (0 + x)%float =
  match Prim2SF x with S754_zero _ => S754_zero false | y => y end.
Proof.
  rewrite add_spec. change (Prim2SF 0) with (S754_zero false).
  now destruct (Prim2SF x) as [[]|[]| |s m e].
Qed.

Lemma add_zero_l_same (x : float) :
  Prim2SF x <> S754_zero true -> (0 + x)%float = x.
Proof.
  intros H. apply Prim2SF_inj. rewrite add_zero_l.
  destruct (Prim2SF x) as [[]|[]| |s m e]; congruence.
Qed.

(** The difference of a finite number and itself is [+0]. *)
Lemma sub_same_finite (x : float) :
  is_finite x = true -> Prim2SF x <> S754_zero true -> (x - x)%float = 0%float.
Proof.
  rewrite is_finite_SF. intros F N. apply Prim2SF_inj. rewrite sub_spec.
  change (Prim2SF 0) with (S754_zero false).
  destruct (Prim2SF x) as [[]|[]| |s m e]; try discriminate; try congruence;
    try reflexivity.
  unfold SF64sub, SFsub. now rewrite Z.sub_diag.
Qed.

Lemma binary_normalize_not_neg_zero z e :
  -1074 <= e -> binary_normalize prec emax z e false <> S754_zero true.
Proof.
  intros He. destruct z as [|p|p]; cbn [binary_normalize]; [discriminate| |].
  - destruct (binary_round_pos false p e He) as [[E _]|(m & e' & E & _)];
      rewrite E; discriminate.
  - destruct (binary_round_pos true p e He) as [[E _]|(m & e' & E & _)];
      rewrite E; discriminate.
Qed.

Lemma binary_normalize_not_nan z e :
  -1074 <= e -> binary_normalize prec emax z e false <> S754_nan.
Proof.
  intros He. destruct z as [|p|p]; cbn [binary_normalize]; [discriminate| |].
  - destruct (binary_round_pos false p e He) as [[E _]|(m & e' & E & _)];
      rewrite E; discriminate.
  - destruct (binary_round_pos true p e He) as [[E _]|(m & e' & E & _)];
      rewrite E; discriminate.
Qed.

Lemma valid_exponent (x : float) s m e :
  Prim2SF x = S754_finite s m e -> -1074 <= e <= 971.
Proof.
  intros E. apply valid_finite in E. apply bounded_iff in E. lia.
Qed.

(** Subtracting one never gives [-0]. *)
Lemma sub_one_not_neg_zero (y : float) : Prim2SF (y - 1)%float <> S754_zero true.
Proof.
  rewrite sub_spec. change (Prim2SF 1) with (S754_finite false 4503599627370496 (-52)).
  destruct (Prim2SF y) as [[]|[]| |s m e] eqn:E; try discriminate.
  unfold SF64sub, SFsub. apply binary_normalize_not_neg_zero.
  apply valid_exponent in E. lia.
Qed.

(** Nor a NaN, unless it is taken from one. *)
Lemma sub_one_nan (y : float) : is_nan (y - 1)%float = is_nan y.
Proof.
  rewrite !is_nan_SF, sub_spec.
  change (Prim2SF 1) with (S754_finite false 4503599627370496 (-52)).
  destruct (Prim2SF y) as [[]|[]| |s m e] eqn:E; try reflexivity.
  unfold SF64sub, SFsub.
  match goal with |- match ?b with _ => _ end = _ => 
    assert (N : b <> S754_nan); [|now destruct b] end.
  apply binary_normalize_not_nan. apply valid_exponent in E. lia.
Qed.

(** ** Integers as floats *)

Lemma SF_of_Z_pos p :
  Prim2SF (of_Z (Zpos p)) = S754_infinity false \/
  exists m e, Prim2SF (of_Z (Zpos p)) = S754_finite false m e /\
              Zdigits2 (Zpos p) - 53 <= e.
Proof.
  unfold of_Z. cbn [binary_normalize].
  destruct (binary_round_pos false p 0) as [[E _]|(m & e & E & B & V)]; [lia | |];
    rewrite E.
  - left. reflexivity.
  - right. exists m, e. split; [now apply Prim2SF_SF2Prim|].
    rewrite fexp_eq in B. lia.
Qed.

(** The inverse of a float that is at least one is a finite float that
    is not negative; it is at most one when the float is at least
    two. *)
Lemma SF_inverse (y : float) m e :
  Prim2SF y = S754_finite false m e -> -52 <= e ->
  exists m' e',
    Prim2SF (1 / y)%float = S754_finite false m' e' /\
    (-51 <= e -> e' <= -53 \/ (e' <= -52 /\ m' = 4503599627370496%positive)).
Proof.
  intros E He. pose proof (valid_finite _ _ _ _ E) as V.
  pose proof (bounded_normal m e V ltac:(lia)) as [Lo Hi].
  pose proof (valid_exponent _ _ _ _ E) as [_ Up].
  assert (D : Zdigits2 (Zpos m) = 53).
  { apply Z.le_antisymm.
    - apply Zdigits2_le_iff; lia.
    - assert (52 < Zdigits2 (Zpos m)) by (apply Zdigits2_gt_iff; lia). lia. }
  rewrite div_spec, E.
  change (Prim2SF 1) with (S754_finite false 4503599627370496 (-52)).
  unfold SF64div, SFdiv, SFdiv_core_binary.
  change (Zdigits2 (Zpos 4503599627370496)) with 53. rewrite D, fexp_eq.
  set (e' := Z.min (Z.max (53 + -52 - (53 + e) - 53) (-1074)) (-52 - e)).
  assert (S : 51 <= -52 - e - e' <= 53) by (unfold e'; lia).
  destruct (-52 - e - e') as [|s|s] eqn:Es; try lia.
  rewrite Z.shiftl_mul_pow2 by lia.
  change (Zpos 4503599627370496) with (2 ^ 52). rewrite <- pow2_split by lia.
  assert (P51 : 2 ^ (52 + 51) <= 2 ^ (52 + Zpos s)) by (apply Z.pow_le_mono_r; lia).
  change (2 ^ (52 + 51)) with 10141204801825835211973625643008 in P51.
  change (2 ^ 52) with 4503599627370496 in Lo.
  change (2 ^ 53) with 9007199254740992 in Hi.
  destruct (Z.div_eucl (2 ^ (52 + Zpos s)) (Zpos m)) as [q r] eqn:Q.
  assert (Eq : q = 2 ^ (52 + Zpos s) / Zpos m) by (unfold Z.div; now rewrite Q).
  assert (Qpos : 0 < q) by (rewrite Eq; apply Z.div_str_pos; lia).
  assert (Qle : q <= 2 ^ Zpos s).
  { rewrite Eq. apply Z.div_le_upper_bound; [lia|].
    rewrite pow2_split by lia. change (2 ^ 52) with 4503599627370496.
    assert (0 < 2 ^ Zpos s) by (apply Z.pow_pos_nonneg; lia). nia. }
  destruct q as [|q|q]; try lia.
  assert (Dq : Zdigits2 (Zpos q) <= Zpos s + 1).
  { apply Zdigits2_le_iff; [lia|]. rewrite Z.pow_add_r by lia.
    change (2 ^ 1) with 2. lia. }
  change (xorb false false) with false.
  destruct (binary_round_aux_pos false q e' (new_location (Zpos m) r))
    as [[_ B]|(m' & e'' & R & B & _ & _ & T)]; [unfold e'; lia | lia |].
  exists m', e''. split; [exact R|]. intros He'.
  destruct (Z.eq_dec e'' (Z.max e' (Zdigits2 (Zpos q) + e' - 53) + 1)) as [C|C].
  - right. split; [|now apply T]. unfold e' in *. lia.
  - left. unfold e' in *. lia.
Qed.

Lemma zero_div (y : float) :
  Prim2SF y = S754_infinity false \/ (exists m e, Prim2SF y = S754_finite false m e) ->
  (0 / y)%float = 0%float.
Proof.
  intros H. apply Prim2SF_inj. rewrite div_spec. change (Prim2SF 0) with (S754_zero false).
  destruct H as [E|(m & e & E)]; rewrite E; reflexivity.
Qed.

Lemma zero_mul (y : float) :
  Prim2SF y = S754_zero false \/ (exists m e, Prim2SF y = S754_finite false m e) ->
  (0 * y)%float = 0%float.
Proof.
  intros H. apply Prim2SF_inj. rewrite mul_spec. change (Prim2SF 0) with (S754_zero false).
  destruct H as [E|(m & e & E)]; rewrite E; reflexivity.
Qed.

(** Zero divided by a positive count, and zero times the inverse of a
    positive count. *)
Lemma zero_div_count (k : nat) : (0 < k)%nat -> (0 / of_Z (Z.of_nat k))%float = 0%float.
Proof.
  intros H. apply zero_div.
  destruct k as [|k]; [lia|]. rewrite Nat2Z.inj_succ, <- Zpos_P_of_succ_nat.
  destruct (SF_of_Z_pos (Pos.of_succ_nat k)) as [E|(m & e & E & _)]; [now left|].
  right. now exists m, e.
Qed.

Lemma zero_mul_inverse_count (k : nat) :
  (0 < k)%nat -> (0 * (1 / of_Z (Z.of_nat k)))%float = 0%float.
Proof.
  intros H. apply zero_mul.
  destruct k as [|k]; [lia|]. rewrite Nat2Z.inj_succ, <- Zpos_P_of_succ_nat.
  destruct (SF_of_Z_pos (Pos.of_succ_nat k)) as [E|(m & e & E & B)].
  - left. rewrite div_spec, E. reflexivity.
  - right. pose proof (Zdigits2_pos (Pos.of_succ_nat k)).
    destruct (SF_inverse _ m e E ltac:(lia)) as (m' & e' & R & _).
    now exists m', e'.
Qed.

(** The inverse of a count of two or more lies between zero and one. *)
Lemma inverse_count_bounds (k : nat) :
  (2 <= k)%nat ->
  let v := (1 / of_Z (Z.of_nat k))%float in
  (0 <=? v)%float = true /\ (v <=? 1)%float = true.
Proof.
  intros H v. unfold v. rewrite !leb_spec.
  change (Prim2SF 0) with (S754_zero false).
  change (Prim2SF 1) with (S754_finite false 4503599627370496 (-52)).
  destruct k as [|k]; [lia|]. rewrite Nat2Z.inj_succ, <- Zpos_P_of_succ_nat.
  destruct (SF_of_Z_pos (Pos.of_succ_nat k)) as [E|(m & e & E & B)].
  - rewrite div_spec, E. split; reflexivity.
  - assert (D : 1 < Zdigits2 (Zpos (Pos.of_succ_nat k))) by (apply Zdigits2_gt_iff; lia).
    destruct (SF_inverse _ m e E ltac:(lia)) as (m' & e' & R & T).
    rewrite R. split; [reflexivity|].
    unfold SFleb, SFcompare.
    destruct (T ltac:(lia)) as [L|[L M]].
    + replace (e' ?= -52) with Lt by (symmetry; apply Z.compare_lt_iff; lia).
      reflexivity.
    + subst m'. destruct (Z.compare_spec e' (-52)); try reflexivity. lia.
Qed.

(** ** Square roots and quotients that are not numbers *)

Lemma sqrt_negative (v : float) : (v <? 0)%float = true -> sqrt v = nan.
Proof.
  rewrite ltb_spec. change (Prim2SF 0) with (S754_zero false). intros H.
  apply Prim2SF_inj. rewrite sqrt_spec.
  destruct (Prim2SF v) as [[]|[]| |[] m e]; try discriminate; reflexivity.
Qed.

Lemma div_by_nan (a p : float) : is_nan p = true -> is_finite (a / p)%float = false.
Proof.
  rewrite is_nan_SF, is_finite_SF, div_spec.
  destruct (Prim2SF p); try discriminate. intros _.
  now destruct (Prim2SF a).
Qed.

Lemma div_by_zero (a p : float) : is_zero p = true -> is_finite (a / p)%float = false.
Proof.
  rewrite is_zero_SF, is_finite_SF, div_spec.
  destruct (Prim2SF p); try discriminate. intros _.
  now destruct (Prim2SF a).
Qed.

(** Rounding a mantissa that is not negative gives no NaN. *)
Lemma binary_round_aux_not_nan sx mx ex lx :
  0 <= mx -> binary_round_aux prec emax sx mx ex lx <> S754_nan.
Proof.
  intros H. unfold binary_round_aux.
  assert (S : forall m e l, 0 <= m -> 0 <= shr_m (fst (shr_fexp prec emax m e l))).
  { intros m e l Hm. destruct (shr_fexp_spec m e l Hm) as [N P].
    destruct (Z_lt_le_dec 0 (fexp prec emax (Zdigits2 m + e) - e)) as [C|C].
    - destruct (P C) as (mrs & E & M). rewrite E. cbn [fst]. rewrite M.
      apply Z.div_pos; [exact Hm | apply Z.pow_pos_nonneg; lia].
    - rewrite (N C). cbn [fst]. now rewrite shr_m_of_loc. }
  pose proof (S mx ex lx H) as S1.
  destruct (shr_fexp prec emax mx ex lx) as [mrs1 e1]. cbn [fst] in S1.
  pose proof (round_nearest_even_bounds (shr_m mrs1) (loc_of_shr_record mrs1)) as R.
  pose proof (S (round_nearest_even (shr_m mrs1) (loc_of_shr_record mrs1)) e1 loc_Exact
                ltac:(lia)) as S2.
  destruct (shr_fexp prec emax _ e1 loc_Exact) as [mrs2 e2]. cbn [fst] in S2.
  destruct (shr_m mrs2) as [|m|m]; try discriminate; [|lia].
  destruct (e2 <=? emax - prec); discriminate.
Qed.

(** The quotient of a finite float and a finite float that is not zero
    is no NaN. *)
Lemma div_finite_not_nan (a p : float) :
  is_finite a = true -> is_finite p = true -> is_zero p = false ->
  is_nan (a / p)%float = false.
Proof.
  rewrite !is_finite_SF, is_zero_SF, is_nan_SF, div_spec.
  destruct (Prim2SF a) as [sa|sa| |sa ma ea], (Prim2SF p) as [sp|sp| |sp mp ep];
    try discriminate; try reflexivity.
  intros _ _ _. unfold SF64div, SFdiv, SFdiv_core_binary.
  set (e' := Z.min _ _). set (m' := match ea - ep - e' with Z0 => _ | _ => _ end).
  assert (M : 0 <= m').
  { unfold m'. destruct (ea - ep - e'); try lia. apply Z.shiftl_nonneg. lia. }
  destruct (Z.div_eucl m' (Zpos mp)) as [q r] eqn:Q.
  assert (Eq : q = m' / Zpos mp) by (unfold Z.div; now rewrite Q).
  assert (0 <= q) by (rewrite Eq; apply Z.div_pos; lia).
  match goal with |- match ?b with _ => _ end = _ =>
    assert (N : b <> S754_nan) by (now apply binary_round_aux_not_nan); now destruct b end.
Qed.

(** ** The integer part *)

Lemma Qtrunc_nonneg (q : Q) :
  (0 <= q)%Q -> 0 <= Qtrunc q /\ (inject_Z (Qtrunc q) <= q < inject_Z (Qtrunc q) + 1)%Q.
Proof.
  intros H. destruct q as [n d]. unfold Qtrunc. cbn [Qnum Qden].
  assert (N : 0 <= n) by (unfold Qle in H; cbn in H; lia).
  rewrite Z.quot_div_nonneg by lia.
  change (n / Zpos d) with (Qfloor (n # d)).
  split; [apply Z.div_pos; lia|].
  split; [apply Qfloor_le|].
  pose proof (Qlt_floor (n # d)) as F. rewrite inject_Z_plus in F. exact F.
Qed.

Lemma Qtrunc_opp (q : Q) : Qtrunc (- q) = - Qtrunc q.
Proof. destruct q as [n d]. unfold Qtrunc. cbn. apply Z.quot_opp_l. lia. Qed.

Lemma Qtrunc_nonpos (q : Q) :
  (q <= 0)%Q -> Qtrunc q <= 0 /\ (inject_Z (Qtrunc q) - 1 < q <= inject_Z (Qtrunc q))%Q.
Proof.
  intros H. assert (H' : (0 <= - q)%Q) by lra.
  destruct (Qtrunc_nonneg (- q) H') as (P & L & U). rewrite Qtrunc_opp in *.
  rewrite inject_Z_opp in L, U. split; [lia|]. split; lra.
Qed.

Lemma int64_in_range (v : float) :
  - 2 ^ 63 <= Qtrunc (value v) < 2 ^ 63 -> int64 v = Qtrunc (value v).
Proof.
  intros [L U]. unfold int64.
  destruct (Z.leb_spec (- 2 ^ 63) (Qtrunc (value v))); [|lia].
  destruct (Z.ltb_spec (Qtrunc (value v)) (2 ^ 63)); [reflexivity | lia].
Qed.

Lemma int64_out_of_range (v : float) :
  ~ - 2 ^ 63 <= Qtrunc (value v) < 2 ^ 63 -> int64 v = - 2 ^ 63.
Proof.
  intros H. unfold int64.
  destruct (Z.leb_spec (- 2 ^ 63) (Qtrunc (value v))); [|reflexivity].
  destruct (Z.ltb_spec (Qtrunc (value v)) (2 ^ 63)); [lia | reflexivity].
Qed.

Local Close Scope Z_scope.

(* ------------------------------------------------------------------ *)
(** * The claims of the specification *)

Local Open Scope float_scope.

(** Two floats of which one is a NaN and the other is not are
    different. *)
Lemma nan_differs (a b : float) : is_nan a = true -> is_nan b = false -> a <> b.
Proof. intros Ha Hb E. subst b. congruence. Qed.

(** ** The optimization engine *)

Lemma return_statistics_ok (adj_close : DataFrame) :
  return_statistics adj_close =
  Ok (dropna (pct_change adj_close),
      mean (dropna (pct_change adj_close)),
      cov (dropna (pct_change adj_close))).
Proof. reflexivity. Qed.

Lemma optimize_portfolio_run (minimize : Solver) (adj_close : DataFrame) :
  optimize_portfolio minimize adj_close =
  match solver_result minimize adj_close with
  | inl result => Ok (x result,
                      mean (dropna (pct_change adj_close)),
                      cov (dropna (pct_change adj_close)))
  | inr text => Raise (MinimizeError text)
  end.
Proof. reflexivity. Qed.

(** C3, as the program has it: [optimize_portfolio] never raises
    [OptimizationDivergedError].  When the solver call returns a
    result, whatever it reports in [success], the weight vector
    returned is the solver's [x], next to the mean returns and the
    covariance matrix; when the solver call raises, that exception
    leaves the engine. *)
Theorem optimize_portfolio_ignores_success (minimize : Solver) (adj_close : DataFrame) :
  optimize_portfolio minimize adj_close =
    match solver_result minimize adj_close with
    | inl result => Ok (x result,
                        mean (dropna (pct_change adj_close)),
                        cov (dropna (pct_change adj_close)))
    | inr text => Raise (MinimizeError text)
    end /\
  optimize_portfolio minimize adj_close <> Raise OptimizationDivergedError.
Proof.
  split; [apply optimize_portfolio_run|].
  rewrite optimize_portfolio_run.
  destruct (solver_result minimize adj_close); discriminate.
Qed.

(** C3 fails as written: with a solver that has not converged on the
    three-day price history, the engine still returns a weight vector. *)
Lemma diverged_spec_fails : ~ diverged_spec stalled three_days.
Proof.
  intros [H _].
  specialize (H (mkResult (initial_guess 2) false 9) eq_refl eq_refl).
  rewrite optimize_portfolio_run in H. discriminate H.
Qed.

(** ** The return statistics on too little data *)

Lemma map_const_seq {A : Type} (c : A) (n a : nat) :
  map (fun _ => c) (seq a n) = repeat c n.
Proof.
  revert a; induction n as [|n IH]; intros a; simpl; [reflexivity|].
  now rewrite IH.
Qed.

Lemma columns_pct_change (df : DataFrame) : columns (pct_change df) = columns df.
Proof. unfold pct_change. destruct (rows df); reflexivity. Qed.

Lemma columns_cleaned (df : DataFrame) :
  columns (dropna (pct_change df)) = columns df.
Proof. simpl. apply columns_pct_change. Qed.

Lemma existsb_isnan_nans {A : Type} (r : list A) :
  r <> [] -> existsb isnan (map (fun _ => NaN) r) = true.
Proof. destruct r; [congruence | reflexivity]. Qed.

Lemma cov_entry_empty : cov_entry 0 [] [] = NaN.
Proof. reflexivity. Qed.

(** Without a cleaned row every mean and every covariance is NaN. *)
Lemma statistics_of_no_rows (df : DataFrame) :
  rows df = [] ->
  mean df = repeat NaN (length (columns df)) /\
  cov df = repeat (repeat NaN (length (columns df))) (length (columns df)).
Proof.
  intros E. unfold mean, cov, column. rewrite E. cbn [map length].
  rewrite cov_entry_empty. split.
  - apply map_const_seq.
  - rewrite <- (map_const_seq (repeat NaN (length (columns df))) _ 0).
    apply map_ext; intros _. apply map_const_seq.
Qed.

Lemma statistics_of_no_columns (df : DataFrame) :
  columns df = [] -> mean df = [] /\ cov df = [].
Proof. intros E. unfold mean, cov. rewrite E. split; reflexivity. Qed.

(** Fewer than two price rows leave no return row, unless the frame has
    no column at all. *)
Lemma short_history_cleaned (df : DataFrame) :
  well_shaped df -> (length (rows df) < 2)%nat ->
  rows (dropna (pct_change df)) = [] \/ columns df = [].
Proof.
  intros W L. unfold well_shaped in W. unfold dropna, pct_change.
  destruct (rows df) as [|r [|r' rs]] eqn:E; simpl in *.
  - left. rewrite E. reflexivity.
  - inversion W as [|? ? Hr _]; subst.
    destruct r as [|v r].
    + right. destruct (columns df); [reflexivity | discriminate Hr].
    + left. reflexivity.
  - lia.
Qed.

(** C4, as the program has it: the statistics never fail with
    [InsufficientDataError].  On a price history with fewer than two
    time points, or whose cleaned return series is empty, they are
    returned all the same, with a NaN mean for every asset and a NaN
    covariance for every pair of assets. *)
Theorem statistics_never_insufficient (adj_close : DataFrame) :
  well_shaped adj_close ->
  return_statistics adj_close <> Raise InsufficientDataError /\
  ((length (rows adj_close) < 2)%nat \/ rows (dropna (pct_change adj_close)) = [] ->
   exists returns,
     return_statistics adj_close =
     Ok (returns,
         repeat NaN (length (columns adj_close)),
         repeat (repeat NaN (length (columns adj_close))) (length (columns adj_close)))).
Proof.
  intros W. rewrite return_statistics_ok. split; [discriminate|].
  intros H. exists (dropna (pct_change adj_close)).
  assert (C : rows (dropna (pct_change adj_close)) = [] \/ columns adj_close = []).
  { destruct H as [H|H]; [now apply short_history_cleaned | now left]. }
  destruct C as [C|C].
  - destruct (statistics_of_no_rows _ C) as [Hm Hc].
    rewrite Hm, Hc, columns_cleaned. reflexivity.
  - destruct (statistics_of_no_columns (dropna (pct_change adj_close))) as [Hm Hc].
    { rewrite columns_cleaned. exact C. }
    rewrite Hm, Hc, C. reflexivity.
Qed.

Lemma statistics_never_insufficient_one_day :
  well_shaped one_day /\
  return_statistics one_day <> Raise InsufficientDataError /\
  exists returns, return_statistics one_day = Ok (returns, [NaN], [[NaN]]).
Proof.
  assert (W : well_shaped one_day) by (repeat constructor).
  destruct (statistics_never_insufficient one_day W) as [H1 H2].
  split; [exact W | split; [exact H1 |]].
  apply H2. left. simpl. lia.
Defined.

(** C4 fails as written: a single time point is too little data, and the
    statistics do not raise [InsufficientDataError]. *)
Lemma insufficient_data_spec_fails : ~ insufficient_data_spec one_day.
Proof.
  intros [_ H].
  assert (E : return_statistics one_day = Raise InsufficientDataError).
  { apply H. left. simpl. lia. }
  discriminate E.
Qed.

(** ** Two time points, one asset *)

Lemma not_finite_cases (r : float) :
  is_finite r = false -> is_nan r = false -> r = infinity \/ r = neg_infinity.
Proof.
  rewrite is_finite_SF, is_nan_SF. intros F N.
  destruct (Prim2SF r) as [s|[]| |s m e] eqn:E; try discriminate.
  - right. now apply SF_eq in E.
  - left. now apply SF_eq in E.
Qed.

Lemma np_average_single (r : float) : np_average [r] = 0 + r.
Proof.
  unfold np_average, np_sum, count. cbn [fold_left length].
  change (of_Z (Z.of_nat 1)) with one. apply div_one.
Qed.

Lemma series_mean_single (r : float) : isnan r = false -> series_mean [r] = 0 + r.
Proof.
  intros N. unfold series_mean. cbn [filter]. rewrite N. cbn [negb].
  apply np_average_single.
Qed.

(** A single observation has no sample covariance. *)
Lemma cov_entry_single (r : float) :
  isnan r = false -> Prim2SF r <> S754_zero true -> cov_entry 1 [r] [r] = NaN.
Proof.
  intros N Z. unfold cov_entry, center.
  rewrite np_average_single, (add_zero_l_same r Z).
  cbn [map]. unfold np_dot, np_sum. cbn [combine map fold_left fst snd].
  change (cov_fact 1) with 0.
  destruct (is_finite r) eqn:F.
  - rewrite (sub_same_finite r F Z). reflexivity.
  - destruct (not_finite_cases r F N) as [E|E]; rewrite E; reflexivity.
Qed.

(** C8, as the program has it: two time points of one asset give the
    return [r = price[1] / price[0] - 1], each operation rounded to
    binary64.  Unless [r] is a NaN, the return series holds [r] alone
    and the mean is [r]; the covariance is NaN: a single observation
    has no sample covariance, and the program puts no 0 in its place.
    When [r] is a NaN its row is dropped, and the mean is NaN too. *)
Theorem two_point_statistics (c : string) (p0 p1 : float) :
  let r := p1 / p0 - 1 in
  (isnan r = false ->
   return_statistics (mkFrame [c] [[p0]; [p1]]) =
   Ok (mkFrame [c] [[r]], [r], [[NaN]])) /\
  (isnan r = true ->
   return_statistics (mkFrame [c] [[p0]; [p1]]) =
   Ok (mkFrame [c] [], [NaN], [[NaN]])).
Proof.
  intros r. split; intros N; rewrite return_statistics_ok.
  - assert (R : dropna (pct_change (mkFrame [c] [[p0]; [p1]])) = mkFrame [c] [[r]]).
    { unfold dropna, pct_change.
      cbn [rows columns pct_rows combine map fst snd filter existsb].
      fold r. rewrite N. reflexivity. }
    rewrite R. unfold mean, cov, column.
    cbn [rows columns length seq map nth].
    rewrite (series_mean_single r N).
    assert (Z : Prim2SF r <> S754_zero true) by apply sub_one_not_neg_zero.
    now rewrite (add_zero_l_same r Z), (cov_entry_single r N Z).
  - assert (R : dropna (pct_change (mkFrame [c] [[p0]; [p1]])) = mkFrame [c] []).
    { unfold dropna, pct_change.
      cbn [rows columns pct_rows combine map fst snd filter existsb].
      fold r. rewrite N. reflexivity. }
    rewrite R. reflexivity.
Qed.

Lemma two_point_statistics_100_110 :
  isnan (110 / 100 - 1) = false /\
  return_statistics (mkFrame ["AAA"%string] [[100]; [110]]) =
  Ok (mkFrame ["AAA"%string] [[0.10000000000000009]], [0.10000000000000009], [[NaN]]).
Proof.
  assert (N : isnan (110 / 100 - 1) = false) by reflexivity.
  split; [exact N | exact (proj1 (two_point_statistics "AAA" 100 110) N)].
Defined.

(** C8 fails as written: for the prices 100 and 110 the return computed
    is 0.10000000000000009 and not (110 - 100) / 100, and the covariance
    is NaN, not 0. *)
Lemma two_point_spec_fails :
  110 / 100 - 1 <> (110 - 100) / 100 /\ ~ two_point_spec "AAA" 100 110.
Proof.
  split.
  - intros E. apply (f_equal (fun v => v =? 0.1)) in E. vm_compute in E.
    discriminate E.
  - unfold two_point_spec. intros E. apply (f_equal first_cov) in E.
    revert E. apply nan_differs; reflexivity.
Qed.

(** ** Unchanged prices *)

Lemma pct_same_price (p : float) : usable p -> p / p - 1 = 0.
Proof.
  intros [F Z]. rewrite is_finite_SF in F. rewrite is_zero_SF in Z.
  destruct (Prim2SF p) as [s|s| |s m e] eqn:E; try discriminate.
  now rewrite (div_same p s m e E).
Qed.

Lemma pct_row_const (ps : Series) :
  Forall usable ps ->
  map (fun p => fst p / snd p - 1) (combine ps ps) = repeat 0 (length ps).
Proof.
  induction 1 as [|p ps Hp _ IH]; [reflexivity|].
  cbn [map combine fst snd length repeat].
  rewrite (pct_same_price p Hp). f_equal. exact IH.
Qed.

Lemma pct_rows_const (ps : Series) (k : nat) :
  Forall usable ps ->
  pct_rows ps (repeat ps k) = repeat (repeat 0 (length ps)) k.
Proof.
  intros H. induction k as [|k IH]; [reflexivity|].
  cbn [repeat pct_rows]. rewrite IH, pct_row_const by exact H. reflexivity.
Qed.

Lemma filter_zero_rows (m k : nat) :
  filter (fun r => negb (existsb isnan r)) (repeat (repeat 0 m) k) =
  repeat (repeat 0 m) k.
Proof.
  apply forallb_filter_id, forallb_forall. intros r Hr.
  apply repeat_spec in Hr. subst r.
  induction m as [|m IH]; [reflexivity | exact IH].
Qed.

(** The cleaned returns of [k + 1] days of unchanged prices: [k] rows
    of zeros. *)
Lemma cleaned_constant (cols : list string) (ps : Series) (k : nat) :
  ps <> [] -> Forall usable ps ->
  dropna (pct_change (constant_prices cols ps (S k))) =
  mkFrame cols (repeat (repeat 0 (length ps)) k).
Proof.
  intros Hne H. unfold dropna, pct_change, constant_prices.
  cbn [rows columns repeat]. rewrite pct_rows_const by exact H.
  cbn [filter]. rewrite existsb_isnan_nans by exact Hne.
  cbn [negb]. now rewrite filter_zero_rows.
Qed.

Lemma column_zero_rows (cols : list string) (m k j : nat) :
  (j < m)%nat ->
  column (mkFrame cols (repeat (repeat 0 m) k)) j = repeat 0 k.
Proof.
  intros H. unfold column. cbn [rows]. rewrite map_repeat.
  now rewrite nth_repeat_lt.
Qed.

Lemma map_seq_const {A : Type} (f : nat -> A) (c : A) (m : nat) :
  (forall j, (j < m)%nat -> f j = c) -> map f (seq 0 m) = repeat c m.
Proof.
  intros H. rewrite <- (map_const_seq c m 0).
  apply map_ext_in. intros j Hj. apply in_seq in Hj. apply H. lia.
Qed.

Lemma np_sum_zeros (k : nat) : np_sum (repeat 0 k) = 0.
Proof.
  unfold np_sum. induction k as [|k IH]; cbn [repeat fold_left]; [reflexivity|].
  change (0 + 0) with 0. exact IH.
Qed.

Lemma np_dot_zeros (k : nat) : np_dot (repeat 0 k) (repeat 0 k) = 0.
Proof.
  unfold np_dot.
  assert (E : map (fun p => fst p * snd p) (combine (repeat 0 k) (repeat 0 k)) = repeat 0 k).
  { induction k as [|k IH]; cbn [repeat combine map fst snd]; [reflexivity|].
    rewrite IH. reflexivity. }
  rewrite E. apply np_sum_zeros.
Qed.

Lemma count_repeat {A : Type} (a : A) (k : nat) : count (repeat a k) = of_Z (Z.of_nat k).
Proof. unfold count. now rewrite repeat_length. Qed.

Lemma series_mean_zeros (k : nat) : (0 < k)%nat -> series_mean (repeat 0 k) = 0.
Proof.
  intros H. unfold series_mean.
  rewrite forallb_filter_id.
  2:{ apply forallb_forall. intros v Hv. apply repeat_spec in Hv. now subst. }
  destruct k as [|k]; [lia|].
  change (np_sum (repeat 0 (S k)) / count (repeat 0 (S k)) = 0).
  rewrite np_sum_zeros, count_repeat. now apply zero_div_count.
Qed.

Lemma center_zeros (k : nat) : (0 < k)%nat -> center (repeat 0 k) = repeat 0 k.
Proof.
  intros H. unfold center, np_average.
  rewrite np_sum_zeros, count_repeat, zero_div_count by exact H.
  now rewrite map_repeat.
Qed.

(** The covariance of two unchanged return series of at least two
    observations, and of one observation. *)
Lemma cov_entry_zeros (k : nat) :
  (2 <= k)%nat -> cov_entry k (repeat 0 k) (repeat 0 k) = 0.
Proof.
  intros H. unfold cov_entry.
  rewrite center_zeros, np_dot_zeros by lia.
  unfold cov_fact. destruct (Z.leb_spec (Z.of_nat k - 1) 0) as [L|L]; [lia|].
  replace (Z.of_nat k - 1)%Z with (Z.of_nat (k - 1)) by lia.
  apply zero_mul_inverse_count. lia.
Qed.

Lemma cov_entry_one_zero : cov_entry 1 [0] [0] = NaN.
Proof. reflexivity. Qed.

Lemma mean_zero_rows (cols : list string) (k : nat) :
  (0 < k)%nat ->
  mean (mkFrame cols (repeat (repeat 0 (length cols)) k)) = repeat 0 (length cols).
Proof.
  intros H. unfold mean. cbn [columns]. apply map_seq_const. intros j Hj.
  rewrite column_zero_rows by exact Hj. now apply series_mean_zeros.
Qed.

Lemma cov_zero_rows (cols : list string) (k : nat) :
  (2 <= k)%nat ->
  cov (mkFrame cols (repeat (repeat 0 (length cols)) k)) =
  repeat (repeat 0 (length cols)) (length cols).
Proof.
  intros H. unfold cov. cbn [columns rows]. rewrite repeat_length.
  apply map_seq_const. intros i Hi. apply map_seq_const. intros j Hj.
  rewrite !column_zero_rows by assumption. now apply cov_entry_zeros.
Qed.

Lemma cov_one_zero_row (cols : list string) :
  cov (mkFrame cols (repeat (repeat 0 (length cols)) 1)) =
  repeat (repeat NaN (length cols)) (length cols).
Proof.
  unfold cov. cbn [columns rows]. rewrite repeat_length.
  apply map_seq_const. intros i Hi. apply map_seq_const. intros j Hj.
  rewrite !column_zero_rows by assumption. apply cov_entry_one_zero.
Qed.

(** C9, as the program has it: on a price history of at least two time
    points whose prices never change, and are finite and not zero, the
    mean returns are all zero; the covariances are all zero from three
    time points on, and all NaN for exactly two time points, which
    leave a single return row. *)
Theorem constant_price_statistics (cols : list string) (ps : Series) (n : nat) :
  length ps = length cols ->
  Forall (fun p => is_finite p = true /\ is_zero p = false) ps ->
  (2 <= n)%nat ->
  let m := length cols in
  exists returns,
    return_statistics (constant_prices cols ps n) =
    Ok (returns, repeat 0 m,
        if (n =? 2)%nat then repeat (repeat NaN m) m else repeat (repeat 0 m) m).
Proof.
  intros L H Hn m.
  destruct ps as [|p ps'] eqn:Eps.
  - (* no asset *)
    assert (Em : m = 0%nat) by (unfold m; now rewrite <- L).
    eexists. rewrite return_statistics_ok.
    unfold mean, cov. rewrite columns_cleaned. cbn [columns constant_prices].
    fold m. rewrite Em. now destruct (n =? 2)%nat.
  - rewrite <- Eps in *. assert (Hne : ps <> []) by (rewrite Eps; discriminate).
    destruct n as [|k]; [lia|].
    eexists. rewrite return_statistics_ok.
    rewrite (cleaned_constant cols ps k Hne H). rewrite L.
    rewrite mean_zero_rows by lia.
    destruct (Nat.eqb_spec (S k) 2) as [E|E].
    + replace k with 1%nat by lia. now rewrite cov_one_zero_row.
    + rewrite cov_zero_rows by lia. reflexivity.
Qed.

Lemma constant_price_statistics_three_days :
  length two_prices = length two_tickers /\
  Forall (fun p => is_finite p = true /\ is_zero p = false) two_prices /\
  (2 <= 3)%nat /\
  exists returns,
    return_statistics (constant_prices two_tickers two_prices 3) =
    Ok (returns, [0; 0], [[0; 0]; [0; 0]]).
Proof.
  assert (L : length two_prices = length two_tickers) by reflexivity.
  assert (H : Forall (fun p => is_finite p = true /\ is_zero p = false) two_prices)
    by (repeat constructor).
  assert (N : (2 <= 3)%nat) by lia.
  split; [exact L | split; [exact H | split; [exact N |]]].
  exact (constant_price_statistics two_tickers two_prices 3 L H N).
Defined.

(** C9 fails as written: two time points of an unchanged price are a
    constant price history, and its covariance is NaN, not 0.  So is
    the covariance of three time points of the price 0, whose returns
    [0 / 0 - 1] are NaN and are dropped. *)
Lemma zero_statistics_spec_fails :
  ~ zero_statistics_spec (constant_prices ["AAA"%string] [100] 2) /\
  ~ zero_statistics_spec (constant_prices ["AAA"%string] [0] 3).
Proof.
  split; intros [returns E]; apply (f_equal first_cov) in E;
    revert E; apply nan_differs; reflexivity.
Qed.

(** ** The metrics *)

(** C5, as the program has it: the period return is [w . mean]; the
    period volatility is the square root of the computed quadratic
    form with no clamping, so it is NaN when rounding has made that
    form negative, and the square root of the clamped form otherwise;
    the annual figures are the period return times 252 and the period
    volatility times the square root of 252.  Every product, sum and
    square root is rounded to binary64. *)
Theorem metrics_values (w mean_returns : Series) (cov_matrix : list (list float)) :
  let form := np_dot w (np_matvec cov_matrix w) in
  port_return w mean_returns = np_dot w mean_returns /\
  port_volatility w cov_matrix = sqrt form /\
  ((form <? 0) = true ->
   port_volatility w cov_matrix = NaN /\ sqrt (clamp0 form) = 0) /\
  ((form <? 0) = false ->
   port_volatility w cov_matrix = sqrt (clamp0 form)) /\
  annual_return w mean_returns = port_return w mean_returns * 252 /\
  annual_volatility w cov_matrix = port_volatility w cov_matrix * sqrt 252.
Proof.
  intros form. unfold port_volatility, clamp0. fold form.
  repeat split; try reflexivity.
  - now apply sqrt_negative.
  - now rewrite H.
  - intros H. now rewrite H.
Qed.

Lemma metrics_values_example :
  port_return hedged_weights example_means = 0.016 /\
  port_volatility hedged_weights hedged_cov = NaN /\
  sqrt (clamp0 (np_dot hedged_weights (np_matvec hedged_cov hedged_weights))) = 0 /\
  annual_return hedged_weights example_means = 4.032 /\
  is_nan (annual_volatility hedged_weights hedged_cov) = true.
Proof.
  destruct (metrics_values hedged_weights example_means hedged_cov)
    as (R & _ & N & _ & A & V).
  destruct (N eq_refl) as [N1 N2].
  split; [rewrite R; reflexivity | split; [exact N1 | split; [exact N2 | split]]].
  - rewrite A, R. reflexivity.
  - rewrite V, N1. reflexivity.
Defined.

Lemma hedged_cov_psd : positive_semidefinite hedged_cov.
Proof.
  intros w L. destruct w as [|a [|b [|c w]]]; try discriminate L.
  assert (E : (Qquad [a; b] (map (map value) hedged_cov) == (3 * a - 2 * b) ^ 2)%Q).
  { vm_compute map. unfold Qquad, Qdot, Qsum. cbn [combine map fold_right fst snd].
    field. }
  rewrite E.
  assert (S : forall q : Q, (0 <= q ^ 2)%Q) by (intros q; simpl; nra).
  apply S.
Qed.

(** C5 fails as written.  The matrix [[9, -6], [-6, 4]] is positive
    semi-definite, and on the weights 0.4 and 0.6 its quadratic form is
    computed as -8.9e-17: the program returns a NaN volatility where the
    clamped form has square root 0. *)
Lemma metrics_spec_fails :
  positive_semidefinite hedged_cov /\
  ~ metrics_spec hedged_weights example_means hedged_cov.
Proof.
  split; [exact hedged_cov_psd|].
  intros (_ & V & _). revert V. apply nan_differs; reflexivity.
Qed.

(** ** The allocation plan *)

Lemma plan_run (w ps : Series) (b : Z) :
  length ps = length w ->
  plan w b ps =
  if is_infinity (of_Z b) then Raise OverflowError
  else
    let amount := map (fun wi => wi * of_Z b) w in
    if forallb isfinite (quotients amount ps)
    then Ok (amount, map int64 (quotients amount ps))
    else Raise IntCastingNaNError.
Proof.
  intros L.
  unfold plan, allocation_amount, times_int, of_int, num_shares, truediv, astype_int,
    quotients.
  destruct (is_infinity (of_Z b)); cbn [obind]; [reflexivity|].
  rewrite length_map, <- L, Nat.eqb_refl. cbn [obind].
  now destruct (forallb isfinite _).
Qed.

(** The cast is the truncation toward zero of the value, when that is
    a 64-bit integer. *)
Lemma int64_truncates (q : float) (n : Z) :
  int64 q = n ->
  (- 2 ^ 63 <= Qtrunc (value q) < 2 ^ 63)%Z ->
  ((0 <= value q)%Q -> (0 <= n)%Z /\ (inject_Z n <= value q < inject_Z n + 1)%Q) /\
  ((value q <= 0)%Q -> (n <= 0)%Z /\ (inject_Z n - 1 < value q <= inject_Z n)%Q).
Proof.
  intros E R. rewrite (int64_in_range q R) in E. subst n.
  split; intros H; [now apply Qtrunc_nonneg | now apply Qtrunc_nonpos].
Qed.

(** C6, as the program has it, for one price per weight.  A budget too
    large for a float is refused ([OverflowError]).  Otherwise the
    dollar amounts are the products [w * B] rounded to binary64, and,
    when every rounded quotient [amount / price] is finite, each share
    count is the 64-bit cast of its quotient: the quotient truncated
    toward zero when that is a 64-bit integer, and [- 2 ^ 63] when it
    is not. *)
Theorem allocation_plan (w ps : Series) (b : Z) :
  length ps = length w ->
  let amount := map (fun wi => wi * of_Z b) w in
  plan w b ps =
    (if is_infinity (of_Z b) then Raise OverflowError
     else if forallb isfinite (quotients amount ps)
          then Ok (amount, map int64 (quotients amount ps))
          else Raise IntCastingNaNError) /\
  forall q,
    ((- 2 ^ 63 <= Qtrunc (value q) < 2 ^ 63)%Z ->
     ((0 <= value q)%Q ->
      (0 <= int64 q)%Z /\ (inject_Z (int64 q) <= value q < inject_Z (int64 q) + 1)%Q) /\
     ((value q <= 0)%Q ->
      (int64 q <= 0)%Z /\ (inject_Z (int64 q) - 1 < value q <= inject_Z (int64 q))%Q)) /\
    (~ (- 2 ^ 63 <= Qtrunc (value q) < 2 ^ 63)%Z -> int64 q = (- 2 ^ 63)%Z).
Proof.
  intros L amount. split; [now apply plan_run|].
  intros q. split.
  - intros R. now apply int64_truncates.
  - apply int64_out_of_range.
Qed.

(** The example of the specification. *)
Lemma allocation_plan_example :
  length example_prices = length example_weights /\
  plan example_weights 10000 example_prices =
    Ok ([5000; 3000; 2000], [50; 60; 80]%Z).
Proof.
  assert (L : length example_prices = length example_weights) by reflexivity.
  split; [exact L|].
  rewrite (proj1 (allocation_plan example_weights example_prices 10000 L)).
  reflexivity.
Defined.

(** C6 fails as written: a budget of [10 ^ 30] dollars on one asset at
    the price 1 gives [- 2 ^ 63] shares, not the floor of the quotient. *)
Lemma allocation_spec_fails : ~ allocation_spec [1] (10 ^ 30) [1].
Proof.
  intros (amount & shares & P & _ & S).
  rewrite plan_run in P by reflexivity. vm_compute in P.
  assert (A : amount = [0x1.93e5939a08ceap+99]) by congruence.
  assert (N : shares = [(-9223372036854775808)%Z]) by congruence.
  rewrite N, A in S. vm_compute in S. discriminate S.
Qed.

(** ** When the planner fails *)

Lemma existsb_quotient (amount ps : Series) (bad : float -> bool) :
  length ps = length amount ->
  (forall a p, bad p = true -> is_finite (a / p) = false) ->
  existsb bad ps = true ->
  forallb isfinite (quotients amount ps) = false.
Proof.
  intros L B. revert amount L.
  induction ps as [|p ps IH]; intros [|a amount] L H; try discriminate.
  unfold quotients. cbn [combine map forallb fst snd].
  cbn [existsb] in H. apply orb_true_iff in H as [H|H].
  - unfold isfinite at 1. now rewrite (B a p H).
  - rewrite andb_false_iff. right. apply IH; [now inversion L | exact H].
Qed.

(** C7, as the program has it, for one price per weight and a budget
    that a float can hold.  The planner never fails with
    [InvalidPriceError].  It returns a plan exactly when every rounded
    quotient [amount / price] is finite, and fails otherwise with the
    exception of the integer cast; a price that is NaN or zero always
    makes it fail. *)
Theorem planner_failure (w ps : Series) (b : Z) :
  length ps = length w ->
  is_infinity (of_Z b) = false ->
  let amount := map (fun wi => wi * of_Z b) w in
  plan w b ps <> Raise InvalidPriceError /\
  ((exists r, plan w b ps = Ok r) <->
   forallb isfinite (quotients amount ps) = true) /\
  (forallb isfinite (quotients amount ps) = false ->
   plan w b ps = Raise IntCastingNaNError) /\
  (existsb (fun p => is_nan p || is_zero p) ps = true ->
   plan w b ps = Raise IntCastingNaNError).
Proof.
  intros L B amount. rewrite plan_run by exact L. rewrite B. cbv zeta. fold amount.
  assert (E : existsb (fun p => is_nan p || is_zero p) ps = true ->
              forallb isfinite (quotients amount ps) = false).
  { apply existsb_quotient.
    - unfold amount. now rewrite length_map.
    - intros a p H. apply orb_true_iff in H as [H|H];
        [now apply div_by_nan | now apply div_by_zero]. }
  destruct (forallb isfinite (quotients amount ps)) eqn:F.
  - split; [discriminate|]. split; [|split].
    + split; [reflexivity | intros _; eexists; reflexivity].
    + discriminate.
    + intros H. apply E in H. discriminate H.
  - split; [discriminate|]. split; [|split].
    + split; [intros [r H]; discriminate H | discriminate].
    + reflexivity.
    + reflexivity.
Qed.

Lemma planner_failure_example :
  length [0; 25] = length [0.5; 0.5] /\
  is_infinity (of_Z 10000) = false /\
  plan [0.5; 0.5] 10000 [0; 25] = Raise IntCastingNaNError /\
  plan [0.5; 0.5] 10000 [0; 25] <> Raise InvalidPriceError.
Proof.
  assert (L : length [0; 25] = length [0.5; 0.5]) by reflexivity.
  assert (B : is_infinity (of_Z 10000) = false) by reflexivity.
  destruct (planner_failure [0.5; 0.5] [0; 25] 10000 L B) as (N & _ & _ & Z).
  split; [exact L | split; [exact B | split; [|exact N]]].
  apply Z. reflexivity.
Defined.

(** C7 fails as written, in both directions: the price -1 is not
    positive and the planner returns -100 shares; the price 0.05 is
    positive and the planner fails on a budget of [10 ^ 308], whose
    quotient is beyond the largest float. *)
Lemma invalid_price_spec_fails :
  (plan [1] 100 [-1] = Ok ([100], [(-100)%Z]) /\
   ~ invalid_price_spec [1] 100 [-1]) /\
  (plan [1] (10 ^ 308) [0.05] = Raise IntCastingNaNError /\
   ~ invalid_price_spec [1] (10 ^ 308) [0.05]).
Proof.
  assert (N : plan [1] 100 [-1] = Ok ([100], [(-100)%Z])) by reflexivity.
  assert (P : plan [1] (10 ^ 308) [0.05] = Raise IntCastingNaNError) by reflexivity.
  split; (split; [assumption|]).
  - intros [[_ H] _].
    assert (E : plan [1] 100 [-1] = Raise InvalidPriceError) by (apply H; reflexivity).
    rewrite N in E. discriminate E.
  - intros [_ H]. destruct (H eq_refl) as [r E].
    rewrite P in E. discriminate E.
Qed.

(** ** What the shares cost *)

Lemma Forall_combine_map {A B : Type} (f : A -> B) (P : A * B -> Prop) (l : list A) :
  (forall a, In a l -> P (a, f a)) -> Forall P (combine l (map f l)).
Proof.
  intros H. induction l as [|a l IH]; cbn [map combine]; constructor.
  - apply H. now left.
  - apply IH. intros a' Ha. apply H. now right.
Qed.

(** C10, as the program has it, for one price per weight.  Whenever a
    plan is returned, the share count of an asset whose rounded
    quotient [amount / price] is not negative and below [2 ^ 63] is not
    negative and is that quotient rounded down: it does not exceed the
    rounded quotient.  Nothing bounds the cost of the shares by the
    dollar amount. *)
Theorem never_overspends (w ps : Series) (b : Z) (amount : Series) (shares : list Z) :
  length ps = length w ->
  plan w b ps = Ok (amount, shares) ->
  Forall (fun qn =>
            (0 <= value (fst qn))%Q -> (Qtrunc (value (fst qn)) < 2 ^ 63)%Z ->
            (0 <= snd qn)%Z /\
            (inject_Z (snd qn) <= value (fst qn) < inject_Z (snd qn) + 1)%Q)
         (combine (quotients amount ps) shares).
Proof.
  intros L P. rewrite plan_run in P by exact L.
  destruct (is_infinity (of_Z b)); [discriminate P|]. cbv zeta in P.
  destruct (forallb isfinite _); [|discriminate P].
  assert (A : amount = map (fun wi => wi * of_Z b) w) by congruence.
  assert (S : shares = map int64 (quotients amount ps)) by congruence.
  rewrite S. apply Forall_combine_map. intros q _. cbn [fst snd].
  intros H U.
  destruct (Qtrunc_nonneg (value q) H) as [T _].
  now apply (int64_truncates q (int64 q) eq_refl ltac:(lia)).
Qed.

Lemma never_overspends_example :
  length [0.17] = length [1] /\
  plan [1] 51 [0.17] = Ok ([51], [300%Z]) /\
  (inject_Z 300 <= value (51 / 0.17) < inject_Z 300 + 1)%Q.
Proof.
  assert (L : length [0.17] = length [1]) by reflexivity.
  assert (P : plan [1] 51 [0.17] = Ok ([51], [300%Z])) by reflexivity.
  split; [exact L | split; [exact P|]].
  pose proof (never_overspends [1] [0.17] 51 [51] [300%Z] L P) as F.
  inversion F as [|? ? H _]. cbn [fst snd] in H.
  apply H; vm_compute; [discriminate | reflexivity].
Defined.

(** C10 fails as written: with the budget 51 on one asset at the price
    0.17 the quotient is rounded up to 300, and 300 shares at that
    price cost more than 51. *)
Lemma never_overspends_spec_fails : ~ never_overspends_spec [1] 51 [0.17].
Proof.
  intros H. destruct (H [51] [300%Z] eq_refl) as [_ C].
  vm_compute in C. apply C. reflexivity.
Qed.

(* ------------------------------------------------------------------ *)
(** * Further properties of the numeric core *)

(** ** The shape of the cleaned returns *)

Lemma pct_rows_length (prev : list float) (rs : list (list float)) :
  length (pct_rows prev rs) = length rs.
Proof.
  revert prev. induction rs as [|r rs IH]; intros prev; [reflexivity|].
  cbn [pct_rows length]. now rewrite IH.
Qed.

Lemma pct_rows_shape (m : nat) (prev : list float) (rs : list (list float)) :
  length prev = m -> Forall (fun r => length r = m) rs ->
  Forall (fun r => length r = m) (pct_rows prev rs).
Proof.
  intros Hp H. revert prev Hp.
  induction H as [|r rs Hr _ IH]; intros prev Hp; cbn [pct_rows]; constructor.
  - rewrite length_map, length_combine, Hr, Hp. apply Nat.min_id.
  - now apply IH.
Qed.

Lemma pct_change_shape (df : DataFrame) :
  well_shaped df -> well_shaped (pct_change df) /\
  length (rows (pct_change df)) = length (rows df).
Proof.
  unfold well_shaped, pct_change. intros W.
  destruct (rows df) as [|r rs] eqn:E.
  - rewrite E. split; [constructor | reflexivity].
  - cbn [rows columns length]. inversion W as [|? ? Hr Hrs]; subst.
    split.
    + constructor; [now rewrite length_map | now apply pct_rows_shape].
    + now rewrite pct_rows_length.
Qed.

(** X1: the cleaned return series of a well-shaped price history with
    at least one asset is well shaped, has at most one row fewer than
    the history has days, and holds no NaN. *)
Theorem cleaned_returns_shape (adj_close : DataFrame) :
  well_shaped adj_close ->
  columns adj_close <> [] ->
  let returns := dropna (pct_change adj_close) in
  well_shaped returns /\
  (length (rows returns) <= length (rows adj_close) - 1)%nat /\
  Forall (fun r => Forall (fun v => isnan v = false) r) (rows returns).
Proof.
  intros W Hc returns. unfold returns.
  split; [|split].
  - destruct (pct_change_shape adj_close W) as [W' _].
    unfold well_shaped in *. cbn [dropna rows columns].
    apply Forall_forall. intros r Hr. apply filter_In in Hr as [Hr _].
    rewrite Forall_forall in W'. now apply W'.
  - cbn [dropna rows]. unfold pct_change, well_shaped in *.
    destruct (rows adj_close) as [|r rs] eqn:E.
    + rewrite E. simpl. lia.
    + cbn [rows filter]. inversion W as [|? ? Hr _]; subst.
      rewrite existsb_isnan_nans.
      2:{ intros ->. destruct (columns adj_close); [congruence | discriminate Hr]. }
      cbn [negb].
      pose proof (filter_length_le (fun r0 => negb (existsb isnan r0)) (pct_rows r rs)) as F.
      rewrite pct_rows_length in F. simpl. lia.
  - cbn [dropna rows]. apply Forall_forall. intros r Hr.
    apply filter_In in Hr as [_ Hr]. apply negb_true_iff in Hr.
    apply Forall_forall. intros v Hv.
    destruct (isnan v) eqn:N; [|reflexivity].
    assert (existsb isnan r = true) by (apply existsb_exists; eauto). congruence.
Qed.

Lemma cleaned_returns_shape_three_days :
  well_shaped three_days /\ columns three_days <> [] /\
  well_shaped (dropna (pct_change three_days)) /\
  (length (rows (dropna (pct_change three_days))) <= 2)%nat /\
  Forall (fun r => Forall (fun v => isnan v = false) r)
         (rows (dropna (pct_change three_days))).
Proof.
  assert (W : well_shaped three_days) by (repeat constructor).
  assert (C : columns three_days <> []) by discriminate.
  split; [exact W | split; [exact C|]].
  exact (cleaned_returns_shape three_days W C).
Defined.

(** ** Symmetry of the covariance matrix *)

Lemma np_dot_comm (u v : Series) : np_dot u v = np_dot v u.
Proof.
  unfold np_dot. f_equal. revert v.
  induction u as [|a u IH]; intros [|b v]; try reflexivity.
  cbn [combine map fst snd]. now rewrite mul_comm, IH.
Qed.

Lemma cov_entry_comm (n : nat) (a b : Series) : cov_entry n a b = cov_entry n b a.
Proof. unfold cov_entry. now rewrite np_dot_comm. Qed.

Lemma nth_map_seq {A : Type} (f : nat -> A) (m i : nat) (d : A) :
  (i < m)%nat -> nth i (map f (seq 0 m)) d = f i.
Proof.
  intros H. rewrite (nth_indep _ d (f 0%nat)) by (now rewrite length_map, length_seq).
  rewrite (map_nth f (seq 0 m) 0%nat i). now rewrite seq_nth.
Qed.

Lemma cov_nth (df : DataFrame) (i j : nat) :
  (i < length (columns df))%nat -> (j < length (columns df))%nat ->
  nth j (nth i (cov df) []) NaN =
  cov_entry (length (rows df)) (column df i) (column df j).
Proof.
  intros Hi Hj. unfold cov.
  rewrite (nth_map_seq _ _ i [] Hi). now rewrite (nth_map_seq _ _ j NaN Hj).
Qed.

(** X3: the mean has one entry per column, and the covariance matrix
    is square of that size and symmetric, special values included. *)
Theorem statistics_shape_symmetric (df : DataFrame) :
  let m := length (columns df) in
  length (mean df) = m /\
  length (cov df) = m /\
  Forall (fun r => length r = m) (cov df) /\
  forall i j, (i < m)%nat -> (j < m)%nat ->
    nth j (nth i (cov df) []) NaN = nth i (nth j (cov df) []) NaN.
Proof.
  intros m. unfold m. split; [|split; [|split]].
  - unfold mean. now rewrite length_map, length_seq.
  - unfold cov. now rewrite length_map, length_seq.
  - unfold cov. apply Forall_forall. intros r Hr.
    apply in_map_iff in Hr as [i [<- _]]. now rewrite length_map, length_seq.
  - intros i j Hi Hj. rewrite !cov_nth by assumption. apply cov_entry_comm.
Qed.

(** ** Prices that are finite and not zero *)

Lemma pct_usable (p prev : float) : usable p -> usable prev -> isnan (p / prev - 1) = false.
Proof.
  intros [Fp _] [Fq Zq]. unfold isnan. rewrite sub_one_nan.
  now apply div_finite_not_nan.
Qed.

Lemma pct_row_clean (r prev : Series) :
  Forall usable r -> Forall usable prev ->
  existsb isnan (map (fun p => fst p / snd p - 1) (combine r prev)) = false.
Proof.
  intros Hr. revert prev. induction Hr as [|p r Hp _ IH]; intros prev Hq; [reflexivity|].
  destruct Hq as [|q prev Hq Hprev]; [reflexivity|].
  cbn [combine map existsb fst snd]. rewrite (pct_usable p q Hp Hq). now apply IH.
Qed.

Lemma pct_rows_clean (prev : Series) (rs : list (list float)) :
  Forall usable prev -> Forall (Forall usable) rs ->
  filter (fun r => negb (existsb isnan r)) (pct_rows prev rs) = pct_rows prev rs.
Proof.
  intros Hp H. revert prev Hp. induction H as [|r rs Hr _ IH]; intros prev Hp; [reflexivity|].
  cbn [pct_rows filter]. rewrite (pct_row_clean r prev Hr Hp). cbn [negb].
  f_equal. now apply IH.
Qed.

(** X2: with at least one asset, when every price is finite and not
    zero, no return row is dropped: the cleaned series has one row per
    day after the first, holding the returns [p_t / p_(t-1) - 1] as
    they are rounded. *)
Theorem finite_prices_returns (cols : list string) (r : Series) (rs : list (list float)) :
  r <> [] ->
  Forall (Forall usable) (r :: rs) ->
  dropna (pct_change (mkFrame cols (r :: rs))) = mkFrame cols (pct_rows r rs) /\
  length (pct_rows r rs) = length rs.
Proof.
  intros Hne H. inversion H as [|? ? Hr Hrs]; subst.
  split; [|apply pct_rows_length].
  unfold dropna, pct_change. cbn [rows columns filter].
  rewrite existsb_isnan_nans by exact Hne. cbn [negb].
  now rewrite pct_rows_clean.
Qed.

Lemma finite_prices_returns_three_days :
  [100; 50] <> [] /\
  Forall (Forall usable) (rows three_days) /\
  dropna (pct_change three_days) =
  mkFrame (columns three_days)
          [[0.10000000000000009; -0.099999999999999978];
           [0.10000000000000009; 0.19999999999999996]].
Proof.
  assert (N : [100; 50] <> []) by discriminate.
  assert (U : Forall (Forall usable) (rows three_days))
    by (repeat constructor).
  split; [exact N | split; [exact U|]].
  exact (proj1 (finite_prices_returns (columns three_days) [100; 50]
                  [[110; 45]; [121; 54]] N U)).
Defined.

(** ** The starting point of the solver *)

(** X5: the initial guess has one entry per asset, each of them the
    binary64 quotient [1 / num_assets], and each within the bounds
    [(0, 1)], of which there is one pair per asset. *)
Theorem initial_guess_within_bounds (n : nat) :
  length (initial_guess n) = n /\
  bounds n = repeat (0, 1) n /\
  Forall (fun v => v = 1 / Float.of_Z (Z.of_nat n) /\
                   (0 <=? v) = true /\ (v <=? 1) = true)
         (initial_guess n).
Proof.
  split; [|split; [reflexivity|]].
  - unfold initial_guess. now rewrite length_map, repeat_length.
  - apply Forall_forall. intros v Hv. unfold initial_guess in Hv.
    apply in_map_iff in Hv. destruct Hv as (one & E & Hone).
    destruct n as [|[|k]]; [destruct Hone | |];
      apply repeat_spec in Hone; subst one; subst v;
      (split; [reflexivity|]).
    + split; reflexivity.
    + apply (inverse_count_bounds (S (S k))). lia.
Qed.

(** X23: the initial guess need not satisfy the equality constraint.
    For six assets the six quotients add up to the float just below 1,
    and the constraint function is [- 2^-53] there, not 0. *)
Example initial_guess_six :
  np_sum (initial_guess 6) = 0x1.fffffffffffffp-1 /\
  cfun constraints (initial_guess 6) = - 0x1p-53.
Proof. split; reflexivity. Qed.

(** ** What [print_allocation] writes *)

Lemma for_each_prints {X : Type} (items : list X) (body : X -> py unit) (g : X -> line) :
  (forall it, In it items -> forall out, body it out = (out ++ [g it], Ok tt)) ->
  forall out, for_each items body out = (out ++ map g items, Ok tt).
Proof.
  induction items as [|v items IH]; intros H out; cbn [for_each map].
  - unfold ret. now rewrite app_nil_r.
  - unfold bind. rewrite (H v (or_introl eq_refl) out).
    rewrite IH by (intros it Hit; apply H; now right).
    now rewrite <- app_assoc.
Qed.

Lemma getitem_nth {A : Type} (l : list A) (i : nat) (d : A) :
  (i < length l)%nat -> getitem l i = Ok (nth i l d).
Proof.
  intros H. unfold getitem.
  destruct (nth_error l i) eqn:E.
  - now rewrite (nth_error_nth _ _ d E).
  - apply nth_error_None in E. lia.
Qed.

Lemma in_enumerate {X : Type} (l : list X) (it : nat * X) :
  In it (enumerate l) -> (fst it < length l)%nat.
Proof.
  destruct it as [i v]. unfold enumerate. intros H.
  apply in_combine_l, in_seq in H. simpl. lia.
Qed.

Lemma np_matvec_length (m : list (list float)) (v : Series) :
  length (np_matvec m v) = length m.
Proof. apply length_map. Qed.

(** No ticker is an integer. *)
Lemma loc_int {A : Type} (index : list string) (values : list A) (i : Z) :
  loc index values (Int i) = Raise (KeyError (Int i)).
Proof.
  revert values. induction index as [|label index IH]; intros [|v values];
    try reflexivity.
  cbn [loc key_is]. apply IH.
Qed.

Lemma plan_amount (w ps : Series) (b : Z) (amount : Series) (shares : list Z) :
  plan w b ps = Ok (amount, shares) ->
  allocation_amount w b = Ok amount /\ num_shares amount ps = Ok shares /\
  length amount = length w.
Proof.
  unfold plan. destruct (allocation_amount w b) as [a|e] eqn:A; [|discriminate].
  cbn [obind]. destruct (num_shares a ps) as [n|e] eqn:N; [|discriminate].
  cbn [obind]. intros E. assert (a = amount) by congruence.
  assert (n = shares) by congruence. subst a n.
  split; [reflexivity | split; [exact N|]].
  unfold allocation_amount, times_int in A.
  destruct (of_int b); [|discriminate]. cbn [obind] in A.
  assert (E' : amount = map (fun v => v * a) w) by congruence.
  rewrite E'. apply length_map.
Qed.

Section Printed.

Variables (w : Series) (tickers : list string) (mean_returns : Series).
Variables (cov_matrix : list (list float)) (investment_limit : Z).
Variable latest_prices : Series.

Hypothesis mean_shape : length mean_returns = length w.
Hypothesis cov_shape : Forall (fun r => length r = length w) cov_matrix.
Hypothesis cov_rows : length cov_matrix = length w.
Hypothesis tickers_shape : length tickers = length w.

(** X9: on operands of agreeing shapes [print_allocation] always writes
    its report.  When line 102 or line 103 raises, that exception ends
    the call; otherwise the heading of the plan is written, and the
    first line of the plan is not: the share count of the first ticker
    is looked up by the integer 0 among the ticker labels, which raises
    [KeyError]. *)
Theorem print_allocation_run (out : list line) :
  print_allocation w tickers mean_returns cov_matrix
                   investment_limit latest_prices out =
  match plan w investment_limit latest_prices with
  | Raise e => (out ++ report_lines w tickers mean_returns cov_matrix, Raise e)
  | Ok _ =>
      (out ++ report_lines w tickers mean_returns cov_matrix ++
       [PlanHeader investment_limit],
       match tickers with
       | [] => Ok tt
       | _ :: _ => Raise (KeyError (Int 0))
       end)
  end.
Proof.
  unfold print_allocation, dot, matvec.
  rewrite mean_shape, Nat.eqb_refl.
  assert (F : forallb (fun r => (length r =? length w)%nat) cov_matrix = true).
  { apply forallb_forall. intros r Hr. rewrite Forall_forall in cov_shape.
    apply Nat.eqb_eq. now apply cov_shape. }
  rewrite F, np_matvec_length, cov_rows, Nat.eqb_refl.
  unfold bind at 1. unfold lift at 1.
  unfold bind at 1. unfold lift at 1.
  unfold bind at 1. unfold lift at 1.
  unfold bind at 1. unfold print at 1.
  unfold bind at 1.
  rewrite (for_each_prints (enumerate tickers) _
             (fun it => WeightPct (snd it) (nth (fst it) w NaN * 100))).
  2:{ intros it Hit o. apply in_enumerate in Hit.
      unfold bind, lift, print.
      rewrite (getitem_nth w (fst it) NaN) by lia. reflexivity. }
  unfold bind at 1. unfold print at 1.
  unfold bind at 1. unfold print at 1.
  unfold bind at 1. unfold print at 1.
  unfold bind at 1. unfold print at 1.
  unfold bind at 1. unfold lift at 1.
  assert (O : ((((((out ++ [Text "Optimal Portfolio Allocation:"]) ++
             map (fun it => WeightPct (snd it) (nth (fst it) w NaN * 100))
                 (enumerate tickers)) ++
             [DailyReturnPct (port_return w mean_returns * 100)]) ++
             [DailyVolatilityPct (port_volatility w cov_matrix * 100)]) ++
             [AnnualReturnPct (annual_return w mean_returns * 100)]) ++
             [AnnualVolatilityPct (annual_volatility w cov_matrix * 100)])
            = out ++ report_lines w tickers mean_returns cov_matrix).
  { unfold report_lines. now rewrite <- !app_assoc. }
  rewrite O. unfold plan.
  destruct (allocation_amount w investment_limit) as [amount|e] eqn:A;
    cbn [obind]; [|reflexivity].
  unfold bind at 1. unfold lift at 1.
  destruct (num_shares amount latest_prices) as [shares|e] eqn:N;
    cbn [obind]; [|reflexivity].
  unfold bind at 1. unfold print at 1.
  rewrite <- app_assoc.
  destruct tickers as [|t ts] eqn:T; [reflexivity|].
  assert (La : length amount = length w).
  { apply (plan_amount w latest_prices investment_limit amount shares).
    unfold plan. rewrite A. cbn [obind]. rewrite N. reflexivity. }
  unfold enumerate. cbn [length seq combine for_each fst snd].
  unfold bind at 1. unfold bind at 1. unfold lift at 1.
  assert (G : getitem amount 0 = Ok (nth 0 amount NaN)).
  { apply getitem_nth. rewrite La, <- tickers_shape. cbn. lia. }
  rewrite G. unfold bind at 1. unfold lift at 1.
  now rewrite loc_int.
Qed.

End Printed.

Lemma print_allocation_run_example :
  length example_means = length [0.5; 0.5] /\
  Forall (fun r => length r = length [0.5; 0.5]) hedged_cov /\
  length hedged_cov = length [0.5; 0.5] /\
  length two_tickers = length [0.5; 0.5] /\
  print_allocation [0.5; 0.5] two_tickers example_means hedged_cov 1000 two_prices [] =
  ([Text "Optimal Portfolio Allocation:";
    WeightPct "AAA" 50; WeightPct "BBB" 50;
    DailyReturnPct 1.5; DailyVolatilityPct 50;
    AnnualReturnPct 378; AnnualVolatilityPct 793.7253933193772;
    PlanHeader 1000],
   Raise (KeyError (Int 0))).
Proof.
  assert (M : length example_means = length [0.5; 0.5]) by reflexivity.
  assert (C : Forall (fun r => length r = length [0.5; 0.5]) hedged_cov)
    by (repeat constructor).
  assert (R : length hedged_cov = length [0.5; 0.5]) by reflexivity.
  assert (T : length two_tickers = length [0.5; 0.5]) by reflexivity.
  split; [exact M | split; [exact C | split; [exact R | split; [exact T|]]]].
  rewrite (print_allocation_run [0.5; 0.5] two_tickers example_means hedged_cov 1000
             two_prices M C R T []).
  reflexivity.
Defined.
(* ------------------------------------------------------------------ *)
(** * The command-line layer *)

Local Open Scope nat_scope.

(** ** [safe_download] *)

Section Downloads.

Variable provider : Provider.

Lemma after_no_rate_limit (req : request) (retries from : nat) (w : world) :
  after_rate_limits req retries from 0 w = w.
Proof.
  unfold after_rate_limits. destruct w as [i o s c]. cbn.
  now rewrite !app_nil_r, Nat.add_0_r.
Qed.

(** Rate-limited attempts are slept over and repeated. *)
Lemma attempts_rate_limited (req : request) (retries : nat) :
  forall k remaining w,
    (k <= remaining)%nat -> (remaining <= retries)%nat ->
    (forall i, (i < k)%nat ->
               rate_limited (provider (length (calls w) + i) req) = true) ->
    attempts provider req retries remaining w =
    attempts provider req retries (remaining - k)
             (after_rate_limits req retries (retries - remaining + 1) k w).
Proof.
  induction k as [|k IH]; intros remaining w Hk Hr H.
  - now rewrite Nat.sub_0_r, after_no_rate_limit.
  - destruct remaining as [|r]; [lia|].
    cbn [attempts]. unfold cbind at 1. unfold download at 1.
    pose proof (H 0%nat ltac:(lia)) as H0. rewrite Nat.add_0_r in H0.
    destruct (provider (length (calls w)) req) as [text|data] eqn:E;
      [|discriminate H0].
    cbn [rate_limited] in H0. rewrite H0.
    unfold cbind at 1. unfold emit at 1. unfold cbind at 1. unfold sleep at 1.
    cbn [stdin stdout slept calls].
    rewrite IH; cbn [stdin stdout slept calls]; try lia.
    + replace (S r - S k)%nat with (r - k)%nat by lia.
      f_equal. unfold after_rate_limits. cbn [stdin stdout slept calls].
      f_equal.
      * rewrite <- app_assoc. f_equal. cbn [seq map app].
        rewrite Nat.add_0_r. replace (retries - r)%nat with (retries - S r + 1)%nat by lia.
        f_equal. rewrite <- seq_shift, map_map. apply map_ext. intros i.
        f_equal. lia.
      * lia.
      * rewrite <- app_assoc. reflexivity.
    + intros i Hi. rewrite length_app. cbn [length].
      replace (length (calls w) + 1 + i)%nat with (length (calls w) + S i)%nat by lia.
      apply H. lia.
Qed.

(** X10: when the first [k] attempts are rate limited and the next one,
    still within [retries], delivers, [safe_download] returns that
    data after [k + 1] requests, [10 k] seconds of sleep and one line
    per rate-limited attempt. *)
Theorem safe_download_delivers (req : request) (retries k : nat) (data : Downloaded)
        (w : world) :
  (k < retries)%nat ->
  (forall i, (i < k)%nat ->
             rate_limited (provider (length (calls w) + i) req) = true) ->
  provider (length (calls w) + k) req = Delivers data ->
  safe_download provider req retries w =
  (mkWorld (stdin w)
           (stdout w ++ map (fun i => RateLimited (1 + i) retries) (seq 0 k))
           (slept w + 10 * k)
           (calls w ++ repeat req (S k)),
   Done data).
Proof.
  intros Hk H D. unfold safe_download.
  rewrite (attempts_rate_limited req retries k retries w) by (lia || assumption).
  replace (retries - retries + 1)%nat with 1%nat by lia.
  destruct (retries - k)%nat as [|r] eqn:R; [lia|].
  cbn [attempts]. unfold cbind, download, cret.
  cbn [after_rate_limits stdin stdout slept calls].
  rewrite length_app, repeat_length, D.
  f_equal. f_equal. rewrite <- app_assoc. f_equal.
  change [req] with (repeat req 1). rewrite <- repeat_app. f_equal. lia.
Qed.

(** X11: a failure that is not a rate limit ends the loop at once: no
    sleep for it, no further request, its text is written and
    [RuntimeError] is raised. *)
Theorem safe_download_gives_up (req : request) (retries k : nat) (text : string)
        (w : world) :
  (k < retries)%nat ->
  (forall i, (i < k)%nat ->
             rate_limited (provider (length (calls w) + i) req) = true) ->
  provider (length (calls w) + k) req = Fails text ->
  contains "Too Many Requests" text = false ->
  safe_download provider req retries w =
  (mkWorld (stdin w)
           (stdout w ++ map (fun i => RateLimited (1 + i) retries) (seq 0 k)
                     ++ [DownloadFailed text])
           (slept w + 10 * k)
           (calls w ++ repeat req (S k)),
   Failed retry_failure).
Proof.
  intros Hk H D C. unfold safe_download.
  rewrite (attempts_rate_limited req retries k retries w) by (lia || assumption).
  replace (retries - retries + 1)%nat with 1%nat by lia.
  destruct (retries - k)%nat as [|r] eqn:R; [lia|].
  cbn [attempts]. unfold cbind at 1. unfold download.
  cbn [after_rate_limits stdin stdout slept calls].
  rewrite length_app, repeat_length, D, C.
  unfold cbind, emit, craise. cbn [stdin stdout slept calls].
  f_equal. f_equal.
  - now rewrite <- app_assoc.
  - rewrite <- app_assoc. f_equal.
    change [req] with (repeat req 1). rewrite <- repeat_app. f_equal. lia.
Qed.

(** X12: when every attempt is rate limited, [safe_download] sleeps
    after each of them, the last one too, and raises [RuntimeError]. *)
Theorem safe_download_exhausted (req : request) (retries : nat) (w : world) :
  (forall i, (i < retries)%nat ->
             rate_limited (provider (length (calls w) + i) req) = true) ->
  safe_download provider req retries w =
  (mkWorld (stdin w)
           (stdout w ++ map (fun i => RateLimited (1 + i) retries) (seq 0 retries))
           (slept w + 10 * retries)
           (calls w ++ repeat req retries),
   Failed retry_failure).
Proof.
  intros H. unfold safe_download.
  rewrite (attempts_rate_limited req retries retries retries w) by (lia || assumption).
  replace (retries - retries + 1)%nat with 1%nat by lia.
  rewrite Nat.sub_diag. reflexivity.
Qed.

(** One iteration of the loop. *)
Lemma attempts_step (req : request) (retries r : nat) (w : world) :
  attempts provider req retries (S r) w =
  match provider (length (calls w)) req with
  | Delivers data =>
      (mkWorld (stdin w) (stdout w) (slept w) (calls w ++ [req]), Done data)
  | Fails text =>
      if contains "Too Many Requests" text
      then attempts provider req retries r
             (mkWorld (stdin w) (stdout w ++ [RateLimited (retries - r) retries])
                      (slept w + 10) (calls w ++ [req]))
      else (mkWorld (stdin w) (stdout w ++ [DownloadFailed text]) (slept w)
                    (calls w ++ [req]),
            Failed retry_failure)
  end.
Proof.
  cbn [attempts]. unfold cbind, download.
  destruct (provider (length (calls w)) req) as [text|data]; [|reflexivity].
  destruct (contains "Too Many Requests" text); reflexivity.
Qed.

(** Whatever the provider answers. *)
Lemma attempts_bounded (req : request) (retries : nat) :
  forall remaining w,
    exists k j,
      k <= remaining /\ j <= k /\
      stdin (fst (attempts provider req retries remaining w)) = stdin w /\
      calls (fst (attempts provider req retries remaining w)) = calls w ++ repeat req k /\
      slept (fst (attempts provider req retries remaining w)) = slept w + 10 * j /\
      (forall e, snd (attempts provider req retries remaining w) = Failed e ->
                 e = retry_failure).
Proof.
  induction remaining as [|r IH]; intros w.
  - exists 0, 0. cbn. rewrite app_nil_r, Nat.add_0_r.
    repeat split; try lia. intros e E. now inversion E.
  - rewrite attempts_step.
    destruct (provider (length (calls w)) req) as [text|data].
    + destruct (contains "Too Many Requests" text).
      * destruct (IH (mkWorld (stdin w) (stdout w ++ [RateLimited (retries - r) retries])
                              (slept w + 10) (calls w ++ [req])))
          as (k & j & Hk & Hj & Hi & Hc & Hs & He).
        cbn [stdin stdout slept calls] in *.
        exists (S k), (S j). repeat split; try lia; try assumption.
        rewrite Hc, <- app_assoc. reflexivity.
      * exists 1, 0. cbn. rewrite Nat.add_0_r.
        repeat split; try lia. intros e E. now inversion E.
    + exists 1, 0. cbn. rewrite Nat.add_0_r.
      repeat split; try lia. intros e E. discriminate E.
Qed.

(** X13: whatever the provider answers, [safe_download] reads no input,
    sends the same request at most [retries] times, sleeps ten seconds
    at most once per request, and fails only with its own
    [RuntimeError]. *)
Theorem safe_download_bounded (req : request) (retries : nat) (w : world) :
  exists k j,
    k <= retries /\ j <= k /\
    stdin (fst (safe_download provider req retries w)) = stdin w /\
    calls (fst (safe_download provider req retries w)) = calls w ++ repeat req k /\
    slept (fst (safe_download provider req retries w)) = slept w + 10 * j /\
    (forall e, snd (safe_download provider req retries w) = Failed e ->
               e = retry_failure).
Proof. apply attempts_bounded. Qed.

End Downloads.

(** ** Columns without data *)

Lemma map_nth_seq {A : Type} (l : list A) (d : A) :
  map (fun j => nth j l d) (seq 0 (length l)) = l.
Proof.
  induction l as [|a l IH]; [reflexivity|].
  cbn [length seq map nth]. f_equal.
  rewrite <- seq_shift, map_map. exact IH.
Qed.

Lemma dropna_columns_shape (df : DataFrame) :
  well_shaped (dropna_columns df) /\
  length (rows (dropna_columns df)) = length (rows df) /\
  length (columns (dropna_columns df)) = length (kept_columns df).
Proof.
  unfold well_shaped, dropna_columns. cbn [rows columns].
  split; [|split].
  - apply Forall_forall. intros r Hr. apply in_map_iff in Hr as [r0 [<- _]].
    now rewrite !length_map.
  - now rewrite length_map.
  - now rewrite length_map.
Qed.

Lemma kept_columns_in (df : DataFrame) (j : nat) :
  In j (kept_columns df) ->
  j < length (columns df) /\
  existsb (fun v => negb (isnan v)) (column df j) = true.
Proof.
  unfold kept_columns. intros H. apply filter_In in H as [H1 H2].
  apply in_seq in H1. split; [lia | exact H2].
Qed.

Lemma dropna_columns_column (df : DataFrame) (k : nat) :
  k < length (kept_columns df) ->
  column (dropna_columns df) k = column df (nth k (kept_columns df) 0).
Proof.
  intros H. unfold column, dropna_columns. cbn [rows]. rewrite map_map.
  apply map_ext. intros r.
  rewrite (nth_indep _ NaN (nth 0 r NaN)) by (now rewrite length_map).
  now rewrite (map_nth (fun j => nth j r NaN)).
Qed.

(** X14: dropping the columns without data keeps the rows, yields a
    well-shaped frame whose columns are columns of the input, each with
    a value that is not NaN, and is idempotent. *)
Theorem dropna_columns_keeps_data (df : DataFrame) :
  let out := dropna_columns df in
  well_shaped out /\
  length (rows out) = length (rows df) /\
  length (columns out) <= length (columns df) /\
  (forall k, k < length (columns out) ->
     exists j, j < length (columns df) /\
       nth k (columns out) EmptyString = nth j (columns df) EmptyString /\
       column out k = column df j /\
       existsb (fun v => negb (isnan v)) (column out k) = true) /\
  dropna_columns out = out.
Proof.
  intros out. destruct (dropna_columns_shape df) as (W & R & C). fold out in W, R, C.
  split; [exact W | split; [exact R | split; [|split]]].
  - rewrite C. unfold kept_columns.
    pose proof (filter_length_le (fun j => existsb (fun v => negb (isnan v)) (column df j))
                                 (seq 0 (length (columns df)))) as F.
    now rewrite length_seq in F.
  - intros k Hk. rewrite C in Hk.
    assert (I : In (nth k (kept_columns df) 0) (kept_columns df)) by now apply nth_In.
    destruct (kept_columns_in df _ I) as [Hj He].
    exists (nth k (kept_columns df) 0). split; [exact Hj|].
    unfold out. rewrite dropna_columns_column by exact Hk.
    split; [|split; [reflexivity | exact He]].
    unfold dropna_columns. cbn [columns].
    rewrite (nth_indep _ EmptyString (nth 0 (columns df) EmptyString))
      by (now rewrite length_map).
    now rewrite (map_nth (fun j => nth j (columns df) EmptyString)).
  - assert (K : kept_columns out = seq 0 (length (columns out))).
    { unfold kept_columns. apply forallb_filter_id, forallb_forall.
      intros k Hk. apply in_seq in Hk. rewrite C in Hk.
      unfold out. rewrite dropna_columns_column by lia.
      apply kept_columns_in. apply nth_In. lia. }
    unfold dropna_columns at 1. rewrite K.
    destruct out as [cols rs] eqn:E. cbn [columns rows] in *.
    f_equal; [apply map_nth_seq|].
    rewrite <- (map_id rs) at 2. apply map_ext_in. intros r Hr.
    unfold well_shaped in W. cbn [rows columns] in W.
    rewrite Forall_forall in W. rewrite <- (W r Hr). apply map_nth_seq.
Qed.

(** ** What a run costs *)

Lemma effort_weaken {A : Type} (n s n' s' : nat) (m : cli A) :
  n <= n' -> s <= s' -> effort n s m -> effort n' s' m.
Proof.
  intros Hn Hs H w. destruct (H w) as (x & Hc & Hl & Ht).
  exists x. repeat split; try assumption; lia.
Qed.

Lemma effort_still {A : Type} (m : cli A) :
  (forall w, calls (fst (m w)) = calls w /\ slept (fst (m w)) = slept w) ->
  effort 0 0 m.
Proof.
  intros H w. destruct (H w) as [Hc Hs]. exists []. rewrite app_nil_r, Hs.
  repeat split; try assumption; cbn; lia.
Qed.

Lemma effort_bind {A B : Type} (n1 s1 n2 s2 : nat) (m : cli A) (k : A -> cli B) :
  effort n1 s1 m -> (forall a, effort n2 s2 (k a)) ->
  effort (n1 + n2) (s1 + s2) (cbind m k).
Proof.
  intros Hm Hk w. unfold cbind. destruct (Hm w) as (x & Hc & Hl & Ht).
  destruct (m w) as [w1 [a|e]]; cbn [fst] in *.
  - destruct (Hk a w1) as (y & Hc' & Hl' & Ht').
    exists (x ++ y). rewrite Hc', Hc, <- app_assoc, length_app.
    repeat split; lia.
  - exists x. repeat split; try assumption; lia.
Qed.

Lemma effort_try {A : Type} (n1 s1 n2 s2 : nat) (body : cli A) (handler : error -> cli A) :
  effort n1 s1 body -> (forall e, effort n2 s2 (handler e)) ->
  effort (n1 + n2) (s1 + s2) (try_except body handler).
Proof.
  intros Hm Hk w. unfold try_except. destruct (Hm w) as (x & Hc & Hl & Ht).
  destruct (body w) as [w1 [a|e]]; cbn [fst] in *.
  - exists x. repeat split; try assumption; lia.
  - destruct (is_exception e); cbn [fst].
    + destruct (Hk e w1) as (y & Hc' & Hl' & Ht').
      exists (x ++ y). rewrite Hc', Hc, <- app_assoc, length_app.
      repeat split; lia.
    + exists x. repeat split; try assumption; lia.
Qed.

Lemma effort_ret {A : Type} (a : A) : effort 0 0 (cret a).
Proof. apply effort_still. intros w. split; reflexivity. Qed.

Lemma effort_raise {A : Type} (e : error) : effort 0 0 (@craise A e).
Proof. apply effort_still. intros w. split; reflexivity. Qed.

Lemma effort_emit (ev : event) : effort 0 0 (emit ev).
Proof. apply effort_still. intros w. split; reflexivity. Qed.

Lemma effort_input (prompt : string) : effort 0 0 (input prompt).
Proof.
  apply effort_still. intros w. unfold input.
  destruct (stdin w); split; reflexivity.
Qed.

Lemma effort_of_outcome {A : Type} (o : outcome A) : effort 0 0 (of_outcome o).
Proof. apply effort_still. intros w. destruct o; split; reflexivity. Qed.

Lemma effort_of_py {A : Type} (m : py A) : effort 0 0 (of_py m).
Proof.
  apply effort_still. intros w. unfold of_py.
  destruct (m []) as [out [a|e]]; split; reflexivity.
Qed.

Lemma effort_field (key : string) (data : Downloaded) : effort 0 0 (field key data).
Proof.
  induction data as [|[k df] rest IH]; cbn [field].
  - apply effort_raise.
  - destruct (String.eqb k key); [apply effort_ret | exact IH].
Qed.

Ltac effort_step :=
  first
    [ apply effort_ret | apply effort_raise | apply effort_emit | apply effort_input
    | apply effort_of_outcome | apply effort_of_py | apply effort_field ].

Section Costs.

Variable provider : Provider.
Variable upper : string -> string.
Variable py_int : string -> option Z.
Variable is_date : string -> bool.
Variable minimize : Solver.

Lemma effort_safe_download (req : request) (retries : nat) :
  effort retries (10 * retries) (safe_download provider req retries).
Proof.
  intros w.
  destruct (attempts_bounded provider req retries retries w)
    as (k & j & Hk & Hj & _ & Hc & Hs & _).
  fold (safe_download provider req retries) in Hc, Hs.
  exists (repeat req k). rewrite repeat_length, Hs. repeat split; try assumption; lia.
Qed.

Lemma effort_read_tickers (prompts stocks : list string) :
  effort 0 0 (read_tickers upper prompts stocks).
Proof.
  revert stocks. induction prompts as [|p rest IH]; intros stocks; cbn [read_tickers].
  - apply effort_ret.
  - apply (effort_bind 0 0 0 0); [apply effort_input | intros t; apply IH].
Qed.

Lemma effort_get_user_inputs : effort 0 0 (get_user_inputs upper py_int is_date).
Proof.
  unfold get_user_inputs.
  apply (effort_bind 0 0 0 0); [apply effort_read_tickers | intros stocks].
  apply (effort_bind 0 0 0 0); [apply effort_input | intros text].
  destruct (py_int text); [|apply effort_raise].
  apply (effort_bind 0 0 0 0); [apply effort_input | intros s].
  apply (effort_bind 0 0 0 0); [apply effort_input | intros e].
  destruct (is_date s && is_date e); effort_step.
Qed.

Lemma effort_fetch_data (stocks : list string) (s e : string) :
  effort 6 60 (fetch_data provider stocks s e).
Proof.
  unfold fetch_data.
  apply (effort_try 6 60 0 0).
  - apply (effort_bind 3 30 3 30); [apply effort_safe_download | intros data].
    apply (effort_bind 0 0 3 30); [effort_step | intros prices].
    apply (effort_bind 3 30 0 0); [apply effort_safe_download | intros index].
    apply (effort_bind 0 0 0 0); [effort_step | intros closes].
    apply (effort_bind 0 0 0 0); [effort_step | intros first]. effort_step.
  - intros err. apply (effort_bind 0 0 0 0); [effort_step | intros _; effort_step].
Qed.

Lemma effort_plot_performance (adj_close : DataFrame) (weights : Series)
      (sp500_norm : DataFrame) (b : Z) :
  effort 0 0 (plot_performance adj_close weights sp500_norm b).
Proof.
  unfold plot_performance.
  apply (effort_bind 0 0 0 0); [effort_step | intros first].
  apply (effort_bind 0 0 0 0); [effort_step | intros weighted].
  apply (effort_bind 0 0 0 0); [effort_step | intros limit]. effort_step.
Qed.

(** X17: a run of [main] sends at most six requests to the provider
    and sleeps at most sixty seconds. *)
Theorem main_effort :
  effort 6 60 (main provider upper py_int is_date minimize).
Proof.
  unfold main. apply (effort_try 6 60 0 0); [|intros e; effort_step].
  apply (effort_bind 0 0 6 60); [apply effort_get_user_inputs|].
  intros [[[stocks budget] s] e].
  apply (effort_bind 6 60 0 0); [apply effort_fetch_data|].
  intros [adj_close sp500_norm].
  destruct (empty adj_close); [effort_step|].
  apply (effort_bind 0 0 0 0); [effort_step|].
  intros [[optimal_weights mean_returns] cov_matrix].
  apply (effort_bind 0 0 0 0); [effort_step | intros latest_prices].
  apply (effort_bind 0 0 0 0); [effort_step | intros _].
  apply effort_plot_performance.
Qed.

(** [except Exception] with a handler that returns leaves one way to
    fail. *)
Lemma try_except_total (body : cli unit) (handler : error -> cli unit) (w : world) :
  (forall e w', snd (handler e w') = Done tt) ->
  snd (try_except body handler w) = Done tt \/
  (snd (try_except body handler w) = Failed SystemExit /\
   snd (body w) = Failed SystemExit).
Proof.
  intros H. unfold try_except.
  destruct (body w) as [w1 [[]|e]]; [now left|].
  destruct e; cbn [is_exception]; try (left; apply H).
  right. split; reflexivity.
Qed.

Lemma main_never_raises (w : world) :
  let run := main provider upper py_int is_date minimize w in
  snd run = Done tt \/ snd run = Failed SystemExit.
Proof.
  intros run. unfold run, main.
  match goal with
  | |- context [try_except ?b ?h] =>
      destruct (try_except_total b h w) as [D|[E _]]
  end.
  - intros e w'. reflexivity.
  - now left.
  - now right.
Qed.

End Costs.

(** ** The questions asked *)

Section Questions.

Variable provider : Provider.
Variable upper : string -> string.
Variable py_int : string -> option Z.
Variable is_date : string -> bool.
Variable minimize : Solver.

(** X15: [get_user_inputs] succeeds exactly when six lines can be read,
    the fourth is an integer and the last two are dates; it then
    returns the three tickers in upper case, the budget and the two
    dates as typed, having asked its six questions.  Neither the sign of
    the budget nor the order of the dates is looked at. *)
Theorem get_user_inputs_succeeds (w : world)
        (v : list string * Z * string * string) :
  snd (get_user_inputs upper py_int is_date w) = Done v <->
  exists t1 t2 t3 b s e rest z,
    stdin w = t1 :: t2 :: t3 :: b :: s :: e :: rest /\
    py_int b = Some z /\ is_date s = true /\ is_date e = true /\
    v = ([upper t1; upper t2; upper t3], z, s, e) /\
    fst (get_user_inputs upper py_int is_date w) =
      mkWorld rest (stdout w ++ input_prompts) (slept w) (calls w).
Proof.
  destruct w as [i o sl c]. cbn [stdin stdout slept calls].
  unfold get_user_inputs, ticker_prompts, read_tickers, cbind, input, cret, craise.
  cbn [stdin stdout slept calls app].
  split.
  - destruct i as [|t1 [|t2 [|t3 [|b i]]]]; try (cbn; discriminate).
    cbn [stdin stdout slept calls app snd fst].
    destruct (py_int b) as [z|] eqn:B; [|cbn; discriminate].
    destruct i as [|s [|e rest]]; try (cbn; discriminate).
    cbn [stdin stdout slept calls app snd fst].
    destruct (is_date s) eqn:S, (is_date e) eqn:E; cbn; try discriminate.
    intros H. inversion H. subst v.
    exists t1, t2, t3, b, s, e, rest, z.
    repeat split; try assumption; try reflexivity.
    f_equal. rewrite <- !app_assoc. reflexivity.
  - intros (t1 & t2 & t3 & b & s & e & rest & z & Hi & B & S & E & V & _).
    subst i v. cbn [stdin stdout slept calls app snd fst].
    rewrite B. cbn [stdin stdout slept calls app snd fst].
    now rewrite S, E.
Qed.

(** X16: when the budget typed is not an integer, [main] writes the
    error after the fourth question and returns: no date is asked for
    and the provider is not called. *)
Theorem main_rejects_budget (w : world) (t1 t2 t3 b : string) (rest : list string) :
  stdin w = t1 :: t2 :: t3 :: b :: rest ->
  py_int b = None ->
  main provider upper py_int is_date minimize w =
  (mkWorld rest
           (stdout w ++ firstn 4 input_prompts ++
            [MainFailed (ValueErrorText "Investment budget must be an integer.")])
           (slept w) (calls w),
   Done tt).
Proof.
  intros Hi B. destruct w as [i o sl c]. cbn [stdin stdout slept calls] in *. subst i.
  unfold main, try_except, get_user_inputs, ticker_prompts, read_tickers,
    cbind, input, cret, craise.
  cbn [stdin stdout slept calls app snd fst]. rewrite B.
  cbn [is_exception]. unfold emit.
  cbn [stdin stdout slept calls firstn input_prompts].
  f_equal. f_equal. rewrite <- !app_assoc. reflexivity.
Qed.

End Questions.

(** ** How a run can end *)

Lemma announced_if_no_exit {A : Type} (m : cli A) :
  (forall w, snd (m w) <> Failed SystemExit) -> exit_is_announced m.
Proof. intros H w E. now apply H in E. Qed.

Lemma announced_bind {A B : Type} (m : cli A) (k : A -> cli B) :
  exit_is_announced m -> (forall a, exit_is_announced (k a)) ->
  exit_is_announced (cbind m k).
Proof.
  intros Hm Hk w. unfold cbind. specialize (Hm w).
  destruct (m w) as [w1 [a|e]]; cbn [fst snd] in *.
  - apply Hk.
  - intros E. inversion E. subst e. now apply Hm.
Qed.

Lemma announced_try {A : Type} (body : cli A) (handler : error -> cli A) :
  exit_is_announced body -> (forall e, exit_is_announced (handler e)) ->
  exit_is_announced (try_except body handler).
Proof.
  intros Hm Hk w. unfold try_except. specialize (Hm w).
  destruct (body w) as [w1 [a|e]]; cbn [fst snd] in *; [discriminate|].
  destruct (is_exception e); [apply Hk | exact Hm].
Qed.

Lemma announced_ret {A : Type} (a : A) : exit_is_announced (cret a).
Proof. apply announced_if_no_exit. intros w. discriminate. Qed.

Lemma announced_emit (ev : event) : exit_is_announced (emit ev).
Proof. apply announced_if_no_exit. intros w. discriminate. Qed.

Lemma announced_raise {A : Type} (e : error) :
  e <> SystemExit -> exit_is_announced (@craise A e).
Proof. intros H. apply announced_if_no_exit. intros w E. inversion E. congruence. Qed.

Lemma announced_input (prompt : string) : exit_is_announced (input prompt).
Proof.
  apply announced_if_no_exit. intros w. unfold input.
  destruct (stdin w); discriminate.
Qed.

Lemma announced_of_outcome {A : Type} (o : outcome A) :
  exit_is_announced (of_outcome o).
Proof. apply announced_if_no_exit. intros w. destruct o; discriminate. Qed.

Lemma announced_of_py {A : Type} (m : py A) : exit_is_announced (of_py m).
Proof.
  apply announced_if_no_exit. intros w. unfold of_py.
  destruct (m []) as [out [a|e]]; discriminate.
Qed.

Lemma announced_field (key : string) (data : Downloaded) :
  exit_is_announced (field key data).
Proof.
  induction data as [|[k df] rest IH]; cbn [field].
  - apply announced_raise. discriminate.
  - destruct (String.eqb k key); [apply announced_ret | exact IH].
Qed.

Ltac announced_step :=
  first
    [ apply announced_ret | apply announced_emit | apply announced_input
    | apply announced_of_outcome | apply announced_of_py | apply announced_field
    | apply announced_raise; discriminate ].

Section Endings.

Variable provider : Provider.
Variable upper : string -> string.
Variable py_int : string -> option Z.
Variable is_date : string -> bool.
Variable minimize : Solver.

Lemma announced_safe_download (req : request) (retries : nat) :
  exit_is_announced (safe_download provider req retries).
Proof.
  apply announced_if_no_exit. intros w E.
  destruct (attempts_bounded provider req retries retries w)
    as (k & j & _ & _ & _ & _ & _ & H).
  fold (safe_download provider req retries) in H.
  apply H in E. discriminate E.
Qed.

Lemma announced_read_tickers (prompts stocks : list string) :
  exit_is_announced (read_tickers upper prompts stocks).
Proof.
  revert stocks. induction prompts as [|p rest IH]; intros stocks; cbn [read_tickers].
  - apply announced_ret.
  - apply announced_bind; [apply announced_input | intros t; apply IH].
Qed.

Lemma announced_get_user_inputs :
  exit_is_announced (get_user_inputs upper py_int is_date).
Proof.
  unfold get_user_inputs.
  apply announced_bind; [apply announced_read_tickers | intros stocks].
  apply announced_bind; [apply announced_input | intros text].
  destruct (py_int text); [|announced_step].
  apply announced_bind; [apply announced_input | intros s].
  apply announced_bind; [apply announced_input | intros e].
  destruct (is_date s && is_date e); announced_step.
Qed.

Lemma announced_fetch_data (stocks : list string) (s e : string) :
  exit_is_announced (fetch_data provider stocks s e).
Proof.
  unfold fetch_data. apply announced_try.
  - apply announced_bind; [apply announced_safe_download | intros data].
    apply announced_bind; [announced_step | intros prices].
    apply announced_bind; [apply announced_safe_download | intros index].
    apply announced_bind; [announced_step | intros closes].
    apply announced_bind; [announced_step | intros first]. announced_step.
  - intros err w _. exists err, (stdout w). reflexivity.
Qed.

Lemma announced_plot_performance (adj_close : DataFrame) (weights : Series)
      (sp500_norm : DataFrame) (b : Z) :
  exit_is_announced (plot_performance adj_close weights sp500_norm b).
Proof.
  unfold plot_performance.
  apply announced_bind; [announced_step | intros first].
  apply announced_bind; [announced_step | intros weighted].
  apply announced_bind; [announced_step | intros limit]. announced_step.
Qed.

(** X19: [fetch_data] returns, or ends the program with [SystemExit]
    right after writing why the data could not be fetched; no other
    exception leaves it. *)
Theorem fetch_data_ends (stocks : list string) (s e : string) (w : world) :
  let run := fetch_data provider stocks s e w in
  (exists v, snd run = Done v) \/
  (snd run = Failed SystemExit /\
   exists err hist, stdout (fst run) = hist ++ [FetchFailed err]).
Proof.
  intros run.
  assert (T : (exists v, snd run = Done v) \/ snd run = Failed SystemExit).
  { unfold run, fetch_data, try_except.
    match goal with |- context [match ?b w with _ => _ end] => destruct (b w) as [w1 [v|err]] end.
    - left. now exists v.
    - right. destruct err; reflexivity. }
  destruct T as [T|T]; [now left | right].
  split; [exact T|]. now apply announced_fetch_data.
Qed.

(** X18: [main] returns normally, every exception caught and written,
    or ends with the [SystemExit] of [fetch_data], whose message is
    then the last thing written. *)
Theorem main_ends (w : world) :
  let run := main provider upper py_int is_date minimize w in
  snd run = Done tt \/
  (snd run = Failed SystemExit /\
   exists err hist, stdout (fst run) = hist ++ [FetchFailed err]).
Proof.
  intros run.
  destruct (main_never_raises provider upper py_int is_date minimize w)
    as [D|E]; [now left | right].
  split; [exact E|]. revert E. unfold run. generalize w. clear.
  change (exit_is_announced (main provider upper py_int is_date minimize)).
  unfold main. apply announced_try; [|intros e; announced_step].
  apply announced_bind; [apply announced_get_user_inputs|].
  intros [[[stocks budget] s] e].
  apply announced_bind; [apply announced_fetch_data|].
  intros [adj_close sp500_norm].
  destruct (empty adj_close); [announced_step|].
  apply announced_bind; [announced_step|].
  intros [[optimal_weights mean_returns] cov_matrix].
  apply announced_bind; [announced_step | intros latest_prices].
  apply announced_bind; [announced_step | intros _].
  apply announced_plot_performance.
Qed.

End Endings.

(** ** What [fetch_data] returns *)

Section Fetched.

Variable provider : Provider.

Lemma divide_by_first (df : DataFrame) (first : Series) :
  iloc_first df = Ok first ->
  exists rest,
    rows (divide_rows df first) = map (fun v => v / v)%float first :: rest /\
    length rest = length (rows df) - 1.
Proof.
  unfold iloc_first, divide_rows. cbn [rows].
  destruct (rows df) as [|r rs]; [discriminate|].
  intros E. inversion E. subst r. cbn [map length].
  exists (map (fun r => map (fun p => fst p / snd p)%float (combine r first)) rs).
  split; [|rewrite length_map; cbn; lia].
  f_equal. clear. induction first as [|v l IH]; [reflexivity|].
  cbn [combine map fst snd]. now rewrite IH.
Qed.

Lemma dropna_rows_clean (df : DataFrame) (r : Series) :
  In r (rows (dropna df)) -> Forall (fun v => isnan v = false) r.
Proof.
  cbn [dropna rows]. intros H. apply filter_In in H as [_ H].
  apply negb_true_iff in H. apply Forall_forall. intros v Hv.
  destruct (isnan v) eqn:N; [|reflexivity].
  assert (existsb isnan r = true) by (apply existsb_exists; eauto). congruence.
Qed.

(** X20: what [fetch_data] returns: a well-shaped price frame in which
    every column has a value, and an index frame without NaN whose
    first row is each first value divided by itself. *)
Theorem fetch_data_delivers (stocks : list string) (s e : string) (w : world)
        (adj_close sp500_normalized : DataFrame) :
  snd (fetch_data provider stocks s e w) = Done (adj_close, sp500_normalized) ->
  well_shaped adj_close /\
  (forall k, k < length (columns adj_close) ->
             existsb (fun v => negb (isnan v)) (column adj_close k) = true) /\
  exists first rest,
    rows sp500_normalized = map (fun v => v / v)%float first :: rest /\
    Forall (fun v => isnan v = false) first.
Proof.
  unfold fetch_data, try_except, cbind.
  destruct (safe_download provider (mkRequest stocks s e) 3 w) as [w1 [data|e1]].
  2:{ destruct (is_exception e1); cbn; discriminate. }
  destruct (field "Adj Close" data w1) as [w2 [prices|e2]].
  2:{ destruct (is_exception e2); cbn; discriminate. }
  destruct (safe_download provider (mkRequest ["^GSPC"%string] s e) 3 w2)
    as [w3 [index|e3]].
  2:{ destruct (is_exception e3); cbn; discriminate. }
  destruct (field "Adj Close" index w3) as [w4 [closes|e4]].
  2:{ destruct (is_exception e4); cbn; discriminate. }
  destruct (iloc_first (dropna closes)) as [first|e5] eqn:F; cbn [of_outcome].
  2:{ cbn. discriminate. }
  cbn [cret snd]. intros E. inversion E. subst adj_close sp500_normalized.
  split; [apply dropna_columns_shape | split].
  - intros k Hk. destruct (dropna_columns_shape prices) as (_ & _ & C).
    rewrite C in Hk. rewrite dropna_columns_column by exact Hk.
    apply kept_columns_in. now apply nth_In.
  - destruct (divide_by_first _ _ F) as [rest [R _]].
    exists first, rest. split; [exact R|].
    apply (dropna_rows_clean closes). unfold iloc_first in F.
    destruct (rows (dropna closes)) as [|r rs]; [discriminate|].
    inversion F. now left.
Qed.

(** X21: a download error for the stocks ends the program: the error
    and the fetching message are written, one request was sent, and
    the index is never requested. *)
Theorem fetch_data_download_error (stocks : list string) (s e text : string)
        (w : world) :
  provider (length (calls w)) (mkRequest stocks s e) = Fails text ->
  contains "Too Many Requests" text = false ->
  fetch_data provider stocks s e w =
  (mkWorld (stdin w)
           (stdout w ++ [DownloadFailed text; FetchFailed retry_failure])
           (slept w)
           (calls w ++ [mkRequest stocks s e]),
   Failed SystemExit).
Proof.
  intros P C. unfold fetch_data, try_except, cbind.
  unfold safe_download. rewrite attempts_step, P, C.
  cbn [is_exception retry_failure]. unfold emit, craise.
  cbn [stdin stdout slept calls]. now rewrite <- app_assoc.
Qed.

End Fetched.

(** ** The figure *)

Lemma raises_bind {A B : Type} (m : py A) (k : A -> py B) :
  (forall a, always_raises (k a)) -> always_raises (bind m k).
Proof.
  intros H out. unfold bind. destruct (m out) as [out' [a|e]].
  - apply H.
  - now exists out', e.
Qed.

Lemma raises_first {A B : Type} (m : py A) (k : A -> py B) :
  always_raises m -> always_raises (bind m k).
Proof.
  intros H out. unfold bind. destruct (H out) as (out' & e & E).
  rewrite E. now exists out', e.
Qed.

(** With a ticker to print, [print_allocation] ends with an exception:
    if nothing else raises before, the lookup of the first share count
    does. *)
Lemma print_allocation_raises (w : Series) (t : string) (ts : list string)
      (mean_returns : Series) (cov_matrix : list (list float)) (b : Z)
      (latest_prices : Series) :
  always_raises (print_allocation w (t :: ts) mean_returns cov_matrix b latest_prices).
Proof.
  unfold print_allocation.
  do 12 (apply raises_bind; intros ?).
  unfold enumerate. cbn [length seq combine for_each fst snd].
  apply raises_first. apply raises_bind. intros amount0. apply raises_first.
  intros out. rewrite loc_int. unfold lift. now eexists _, _.
Qed.

Lemma quiet_still {A : Type} (m : cli A) :
  (forall w, stdout (fst (m w)) = stdout w) -> shows_no_figure m.
Proof. intros H w. exists []. now rewrite app_nil_r, H. Qed.

Lemma quiet_bind {A B : Type} (m : cli A) (k : A -> cli B) :
  shows_no_figure m -> (forall a, shows_no_figure (k a)) ->
  shows_no_figure (cbind m k).
Proof.
  intros Hm Hk w. unfold cbind. destruct (Hm w) as (x & Hx & Fx).
  destruct (m w) as [w1 [a|e]]; cbn [fst] in *.
  - destruct (Hk a w1) as (y & Hy & Fy). exists (x ++ y).
    rewrite Hy, Hx, <- app_assoc, existsb_app, Fx, Fy. now split.
  - now exists x.
Qed.

(** What follows a run that fails is not run. *)
Lemma quiet_bind_fails {A B : Type} (m : cli A) (k : A -> cli B) :
  shows_no_figure m -> fails m -> shows_no_figure (cbind m k).
Proof.
  intros Hm Hf w. unfold cbind. destruct (Hm w) as (x & Hx & Fx).
  destruct (Hf w) as [e He].
  destruct (m w) as [w1 [a|e']]; cbn [fst snd] in *; [discriminate|].
  now exists x.
Qed.

Lemma quiet_try {A : Type} (body : cli A) (handler : error -> cli A) :
  shows_no_figure body -> (forall e, shows_no_figure (handler e)) ->
  shows_no_figure (try_except body handler).
Proof.
  intros Hm Hk w. unfold try_except. destruct (Hm w) as (x & Hx & Fx).
  destruct (body w) as [w1 [a|e]]; cbn [fst] in *.
  - now exists x.
  - destruct (is_exception e); cbn [fst].
    + destruct (Hk e w1) as (y & Hy & Fy). exists (x ++ y).
      rewrite Hy, Hx, <- app_assoc, existsb_app, Fx, Fy. now split.
    + now exists x.
Qed.

Lemma quiet_ret {A : Type} (a : A) : shows_no_figure (cret a).
Proof. now apply quiet_still. Qed.

Lemma quiet_raise {A : Type} (e : error) : shows_no_figure (@craise A e).
Proof. now apply quiet_still. Qed.

Lemma quiet_sleep (seconds : nat) : shows_no_figure (sleep seconds).
Proof. now apply quiet_still. Qed.

Lemma quiet_emit (ev : event) : is_figure ev = false -> shows_no_figure (emit ev).
Proof. intros H w. exists [ev]. cbn. now rewrite H. Qed.

Lemma quiet_input (prompt : string) : shows_no_figure (input prompt).
Proof.
  intros w. exists [Prompt prompt]. unfold input. destruct (stdin w); now split.
Qed.

Lemma quiet_of_outcome {A : Type} (o : outcome A) : shows_no_figure (of_outcome o).
Proof. apply quiet_still. intros w. now destruct o. Qed.

Lemma quiet_of_py {A : Type} (m : py A) : shows_no_figure (of_py m).
Proof.
  intros w. unfold of_py. destruct (m []) as [out o]. exists (map Printed out).
  split; [now destruct o|]. induction out as [|l out IH]; [reflexivity | exact IH].
Qed.

Lemma quiet_field (key : string) (data : Downloaded) : shows_no_figure (field key data).
Proof.
  induction data as [|[k df] rest IH]; cbn [field].
  - apply quiet_raise.
  - destruct (String.eqb k key); [apply quiet_ret | exact IH].
Qed.

Ltac quiet_step :=
  first
    [ apply quiet_ret | apply quiet_raise | apply quiet_sleep | apply quiet_input
    | apply quiet_of_outcome | apply quiet_of_py | apply quiet_field
    | apply quiet_emit; reflexivity ].

Section Shown.

Variable provider : Provider.
Variable upper : string -> string.
Variable py_int : string -> option Z.
Variable is_date : string -> bool.
Variable minimize : Solver.

Lemma quiet_attempts (req : request) (retries remaining : nat) :
  shows_no_figure (attempts provider req retries remaining).
Proof.
  induction remaining as [|r IH]; cbn [attempts]; [quiet_step|].
  apply quiet_bind; [now apply quiet_still | intros [text|data]]; [|quiet_step].
  destruct (contains "Too Many Requests" text).
  - apply quiet_bind; [quiet_step | intros _].
    apply quiet_bind; [quiet_step | intros _]. exact IH.
  - apply quiet_bind; [quiet_step | intros _]. quiet_step.
Qed.

Lemma quiet_read_tickers (prompts stocks : list string) :
  shows_no_figure (read_tickers upper prompts stocks).
Proof.
  revert stocks. induction prompts as [|p rest IH]; intros stocks; cbn [read_tickers].
  - quiet_step.
  - apply quiet_bind; [quiet_step | intros t; apply IH].
Qed.

Lemma quiet_get_user_inputs : shows_no_figure (get_user_inputs upper py_int is_date).
Proof.
  unfold get_user_inputs.
  apply quiet_bind; [apply quiet_read_tickers | intros stocks].
  apply quiet_bind; [quiet_step | intros text].
  destruct (py_int text); [|quiet_step].
  apply quiet_bind; [quiet_step | intros s].
  apply quiet_bind; [quiet_step | intros e].
  destruct (is_date s && is_date e); quiet_step.
Qed.

Lemma quiet_fetch_data (stocks : list string) (s e : string) :
  shows_no_figure (fetch_data provider stocks s e).
Proof.
  unfold fetch_data, safe_download. apply quiet_try.
  - apply quiet_bind; [apply quiet_attempts | intros data].
    apply quiet_bind; [quiet_step | intros prices].
    apply quiet_bind; [apply quiet_attempts | intros index].
    apply quiet_bind; [quiet_step | intros closes].
    apply quiet_bind; [quiet_step | intros first]. quiet_step.
  - intros err. apply quiet_bind; [quiet_step | intros _; quiet_step].
Qed.

(** X24: no run of [main] shows the figure.  When there are prices to
    work on, [print_allocation] is called with at least one ticker and
    ends with an exception, at the latest the [KeyError] of the first
    share count; [plot_performance], which follows it, is not
    reached. *)
Theorem main_shows_no_figure :
  shows_no_figure (main provider upper py_int is_date minimize).
Proof.
  unfold main. apply quiet_try; [|intros e; quiet_step].
  apply quiet_bind; [apply quiet_get_user_inputs|].
  intros [[[stocks budget] s] e].
  apply quiet_bind; [apply quiet_fetch_data|].
  intros [adj_close sp500_norm].
  destruct (empty adj_close) eqn:E; [quiet_step|].
  apply quiet_bind; [quiet_step|].
  intros [[optimal_weights mean_returns] cov_matrix].
  apply quiet_bind; [quiet_step | intros latest_prices].
  apply quiet_bind_fails; [quiet_step|].
  destruct (columns adj_close) as [|t ts] eqn:C.
  { unfold empty in E. rewrite C in E. destruct (rows adj_close); discriminate E. }
  intros w. unfold of_py.
  destruct (print_allocation_raises optimal_weights t ts mean_returns cov_matrix
              budget latest_prices []) as (out & err & R).
  rewrite R. now exists (CoreError err).
Qed.

End Shown.

(** ** Examples *)

Lemma safe_download_delivers_example :
  1 < 3 /\
  (forall i, i < 1 ->
     rate_limited (busy_once (length (calls no_world) + i) sample_request) = true) /\
  safe_download busy_once sample_request 3 no_world =
  (mkWorld [] [RateLimited 1 3] 10 [sample_request; sample_request],
   Done [("Close"%string, sample_index); ("Adj Close"%string, sample_prices)]).
Proof.
  assert (K : 1 < 3) by lia.
  assert (H : forall i, i < 1 ->
                rate_limited (busy_once (length (calls no_world) + i) sample_request)
                = true).
  { intros [|i] Hi; [reflexivity | lia]. }
  split; [exact K | split; [exact H|]].
  exact (safe_download_delivers busy_once sample_request 3 1 _ no_world K H eq_refl).
Defined.

Lemma safe_download_gives_up_example :
  0 < 3 /\
  no_data (length (calls no_world) + 0) sample_request = Fails "No data found" /\
  contains "Too Many Requests" "No data found" = false /\
  safe_download no_data sample_request 3 no_world =
  (mkWorld [] [DownloadFailed "No data found"] 0 [sample_request],
   Failed retry_failure).
Proof.
  assert (K : 0 < 3) by lia.
  assert (H : forall i, i < 0 ->
                rate_limited (no_data (length (calls no_world) + i) sample_request)
                = true) by (intros i Hi; lia).
  split; [exact K | split; [reflexivity | split; [reflexivity|]]].
  exact (safe_download_gives_up no_data sample_request 3 0 "No data found" no_world
                                K H eq_refl eq_refl).
Defined.

Lemma safe_download_exhausted_example :
  (forall i, i < 3 ->
     rate_limited (always_busy (length (calls no_world) + i) sample_request) = true) /\
  safe_download always_busy sample_request 3 no_world =
  (mkWorld [] [RateLimited 1 3; RateLimited 2 3; RateLimited 3 3] 30
           [sample_request; sample_request; sample_request],
   Failed retry_failure).
Proof.
  assert (H : forall i, i < 3 ->
                rate_limited (always_busy (length (calls no_world) + i) sample_request)
                = true) by (intros i _; reflexivity).
  split; [exact H|].
  exact (safe_download_exhausted always_busy sample_request 3 no_world H).
Defined.

Lemma main_rejects_budget_example :
  stdin asked = ["aapl"; "msft"; "goog"; "ten thousand"; "2020-01-01"]%string /\
  int_of_digits "ten thousand" = None /\
  main no_data upper_ascii int_of_digits looks_like_date stalled asked =
  (mkWorld ["2020-01-01"%string]
           (firstn 4 input_prompts ++
            [MainFailed (ValueErrorText "Investment budget must be an integer.")])
           0 [],
   Done tt).
Proof.
  split; [reflexivity | split; [reflexivity|]].
  exact (main_rejects_budget no_data upper_ascii int_of_digits looks_like_date
                             stalled asked
                             "aapl" "msft" "goog" "ten thousand" ["2020-01-01"%string]
                             eq_refl eq_refl).
Defined.

Lemma fetch_data_delivers_example :
  snd (fetch_data busy_once (req_tickers sample_request) "2020-01-01" "2020-01-04"
                  no_world) =
    Done (dropna_columns sample_prices,
          divide_rows (dropna sample_index) [4000%float]) /\
  well_shaped (dropna_columns sample_prices) /\
  columns (dropna_columns sample_prices) = ["AAA"; "BBB"]%string /\
  exists first rest,
    rows (divide_rows (dropna sample_index) [4000%float]) =
      map (fun v => v / v)%float first :: rest /\
    Forall (fun v => isnan v = false) first.
Proof.
  assert (R : snd (fetch_data busy_once (req_tickers sample_request)
                              "2020-01-01" "2020-01-04" no_world) =
              Done (dropna_columns sample_prices,
                    divide_rows (dropna sample_index) [4000%float]))
    by reflexivity.
  destruct (fetch_data_delivers busy_once _ _ _ _ _ _ R) as (W & _ & F).
  split; [exact R | split; [exact W | split; [reflexivity | exact F]]].
Defined.

Lemma fetch_data_download_error_example :
  no_data (length (calls no_world)) sample_request = Fails "No data found" /\
  contains "Too Many Requests" "No data found" = false /\
  fetch_data no_data (req_tickers sample_request) "2020-01-01" "2020-01-04" no_world =
  (mkWorld [] [DownloadFailed "No data found"; FetchFailed retry_failure] 0
           [sample_request],
   Failed SystemExit).
Proof.
  split; [reflexivity | split; [reflexivity|]].
  exact (fetch_data_download_error no_data (req_tickers sample_request)
           "2020-01-01" "2020-01-04" "No data found" no_world eq_refl eq_refl).
Defined.

(** A run that reaches the plan: the last thing written is the
    [KeyError] of the first share count, and no figure is shown. *)
Lemma main_shows_no_figure_example :
  existsb is_figure
    (stdout (fst (main busy_once upper_ascii int_of_digits looks_like_date
                       stalled answered))) = false /\
  last (stdout (fst (main busy_once upper_ascii int_of_digits looks_like_date
                          stalled answered))) NoValidData =
  MainFailed (CoreError (KeyError (Int 0))).
Proof.
  split; [|reflexivity].
  destruct (main_shows_no_figure busy_once upper_ascii int_of_digits
              looks_like_date stalled answered) as (more & E & F).
  rewrite E. exact F.
Defined.
